(** * r2-demo: the image route ([app/routes/images.tsx])

    A shallow embedding of the [loader] and [action] of the image
    route, with the collaborators they talk to (the R2 bucket, the
    public URL of the bucket, the AI binding and the D1 database)
    modelled as an explicit state plus an environment that fixes how
    each external call answers. *)

From stdpp Require Import gmap list strings pretty sorting lexico.
From Stdlib Require Import ZArith Lia Ascii.

Open Scope Z_scope.

(** ** JavaScript strings

    A JavaScript string is a sequence of UTF-16 code units; the regular
    expression of the route has no [u] flag, so it works on code units. *)

Module JsString.

Abbreviation jschar := N (only parsing).
Abbreviation jsstring := (list N) (only parsing).

(** An ASCII literal of the source as a JavaScript string. *)
Definition js (s : string) : jsstring :=
  N_of_ascii <$> String.list_ascii_of_string s.

Definition hyphen : jschar := 45%N.

(** The class [\s] of ECMAScript: WhiteSpace and LineTerminator. *)
Definition is_whitespace (c : jschar) : bool :=
  ((9 <=? c) && (c <=? 13)                (* TAB LF VT FF CR *)
   || (c =? 32)                           (* SPACE *)
   || (c =? 160)                          (* NO-BREAK SPACE *)
   || (c =? 5760)                         (* OGHAM SPACE MARK *)
   || ((8192 <=? c) && (c <=? 8202))      (* EN QUAD .. HAIR SPACE *)
   || (c =? 8232) || (c =? 8233)          (* LINE / PARAGRAPH SEPARATOR *)
   || (c =? 8239)                         (* NARROW NO-BREAK SPACE *)
   || (c =? 8287)                         (* MEDIUM MATHEMATICAL SPACE *)
   || (c =? 12288)                        (* IDEOGRAPHIC SPACE *)
   || (c =? 65279))%N.                    (* ZERO WIDTH NO-BREAK SPACE *)

(** [s.replace(/\s+/g, "-")]: scanning from the left, a greedy match
    of [\s+] swallows a whole run of whitespace and is replaced by
    one hyphen; [in_run] tells that the current match is open. *)
Fixpoint replace_ws_runs (in_run : bool) (s : jsstring) : jsstring :=
  match s with
  | [] => []
  | c :: s' =>
      if is_whitespace c
      then (if in_run then replace_ws_runs true s'
            else hyphen :: replace_ws_runs true s')
      else c :: replace_ws_runs false s'
  end.

Definition sanitize (name : jsstring) : jsstring :=
  replace_ws_runs false name.

(** Whether a match of [\s+] is open after reading [s]. *)
Definition run_open (in_run : bool) (s : jsstring) : bool :=
  foldl (fun _ c => is_whitespace c) in_run s.

(** [`${n}`] for an integral Number below 1e21 in magnitude (every
    value of [Date.now()] is): its decimal digits, with a sign. *)
Definition number_to_string (n : Z) : jsstring := js (pretty n).

(** Truthiness of a [string | undefined]. *)
Definition truthy (v : option jsstring) : bool :=
  match v with
  | Some (_ :: _) => true
  | _ => false
  end.

End JsString.
Import JsString.

(** ** Store keys *)

(** [`images/${Date.now()}-${image.name.replace(/\s+/g, "-")}`] *)
Definition derive_key (now : Z) (name : jsstring) : jsstring :=
  js "images/" ++ number_to_string now ++ js "-" ++ sanitize name.

(** [`${context.cloudflare.env.R2_PUBLIC_URL}/${key}`] *)
Definition public_url (base key : jsstring) : jsstring :=
  base ++ js "/" ++ key.


(** ** Data *)

(** A value thrown by JavaScript code: an instance of [Error] with its
    message, or any other value. *)
Inductive exn :=
| JsError (message : jsstring)
| JsThrown.

(** [error instanceof Error ? error.message : fallback] *)
Definition message_or (fallback : jsstring) (error : exn) : jsstring :=
  match error with
  | JsError m => m
  | JsThrown => fallback
  end.

Module File.
Record t := mk { name : jsstring; type : jsstring; bytes : list N }.
End File.

(** The row type [Image] of the route. *)
Module Image.
Record t := mk {
  id : Z;
  url : jsstring;
  name : jsstring;
  description : option jsstring;
  created_at : jsstring
}.
End Image.

(** What [formData.get] can return for a field that is present. *)
Inductive FormDataEntryValue :=
| EntryFile (f : File.t)
| EntryString (s : jsstring).

Abbreviation FormData := (list (jsstring * FormDataEntryValue)) (only parsing).

(** [formData.get(name)]: the first value of the field, or [null]. *)
Fixpoint FormData_get (fd : FormData) (field : jsstring)
  : option FormDataEntryValue :=
  match fd with
  | [] => None
  | (k, v) :: fd' => if decide (k = field) then Some v else FormData_get fd' field
  end.

(** A request: [request.formData()] rejects or resolves to the form. *)
Record Request := { formData : exn + FormData }.

(** An object of the bucket. *)
Record R2Object := { body : list N; contentType : jsstring }.

(** The answers of the collaborators. *)
Inductive fetch_outcome :=
| FetchRejects (e : exn)
| FetchResponse (ok : bool) (statusText : jsstring) (arrayBuffer : exn + list N).

Inductive ai_response :=
| AiUndefined                                 (* [undefined] *)
| AiNull                                      (* [null] *)
| AiObject (description : option jsstring). (* [description] may be missing *)

Inductive ai_outcome :=
| AiRejects (e : exn)
| AiResolves (response : ai_response).

Inductive run_outcome :=
| RunRejects (e : exn)
| RunResult (success : bool).

(** The environment of one request: the clock, the configuration and
    the way each external call answers. *)
Record env := {
  Date_now : Z;
  R2_PUBLIC_URL : jsstring;
  R2_put : jsstring -> File.t -> option exn;      (* [None]: resolves *)
  R2_delete : jsstring -> option exn;
  fetch : jsstring -> fetch_outcome;
  AI_run : list N -> ai_outcome;
  DB_insert : jsstring -> jsstring -> option jsstring -> run_outcome;
  DB_select : option exn;
  CURRENT_TIMESTAMP : jsstring
}.

(** The external calls, as they are made. *)
Inductive call :=
| CallPut (key : jsstring) (f : File.t)
| CallFetch (url : jsstring)
| CallAi (image : list N)
| CallInsert (url name : jsstring) (description : option jsstring)
| CallDelete (key : jsstring)
| CallSelect.

(** The lines written to the console. *)
Inductive log_line :=
| LogUrl (url : jsstring)                (* console.log("url", url) *)
| LogAiFailed (e : exn)                  (* "AI description failed:" *)
| LogError (e : exn)                     (* console.log("error", error) *)
| LogDeleteFailed (e : exn)              (* "Failed to delete image after error:" *)
| LogUploadError (e : exn)               (* "Upload error:" *)
| LogLoadFailed (e : exn).               (* "Failed to load images:" *)

(** The state: the bucket, the rows of table [images] in rowid order,
    what was called and logged so far, and the local variable [key] of
    [action]. *)
Record state := {
  R2 : gmap (list N) R2Object;
  DB : list Image.t;
  calls : list call;
  console : list log_line;
  key : option jsstring
}.

#[global] Instance exn_eq_dec : EqDecision exn.
Proof. solve_decision. Defined.
#[global] Instance File_eq_dec : EqDecision File.t.
Proof. solve_decision. Defined.
#[global] Instance call_eq_dec : EqDecision call.
Proof. solve_decision. Defined.

(** ** Order of [created_at]

    The column holds the text that [CURRENT_TIMESTAMP] produced; the
    database compares text position by position. *)

Definition text_le (x y : jsstring) : Prop := x = y \/ lexico x y.

#[global] Instance text_lt_dec (x y : jsstring) : Decision (lexico x y).
Proof.
  destruct (trichotomyT lexico x y) as [[Hlt | Heq] | Hgt].
  - by left.
  - right. subst. apply (irreflexivity lexico y).
  - right. intros Hlt. apply (irreflexivity lexico x). by etrans.
Defined.

#[global] Instance text_le_dec x y : Decision (text_le x y).
Proof.
  destruct (trichotomyT lexico x y) as [[Hlt | Heq] | Hgt].
  - left. by right.
  - left. by left.
  - right. intros [-> | Hlt].
    + by apply (irreflexivity lexico y).
    + apply (irreflexivity lexico x). by etrans.
Defined.

#[global] Instance text_le_refl : Reflexive text_le.
Proof. intros x. by left. Qed.

#[global] Instance text_le_trans : Transitive text_le.
Proof.
  intros x y z [-> | Hxy] [-> | Hyz]; unfold text_le; auto.
  right. by etrans.
Qed.

#[global] Instance text_le_total : Total text_le.
Proof.
  intros x y. destruct (trichotomyT lexico x y) as [[Hlt | Heq] | Hgt].
  - left. by right.
  - left. by left.
  - right. by right.
Qed.

#[global] Instance text_le_antisymm : AntiSymm (=) text_le.
Proof.
  intros x y [-> | Hxy] [Heq | Hyx]; auto.
  exfalso. apply (irreflexivity lexico x). by etrans.
Qed.

(** [ORDER BY created_at DESC]: [a] may come before [b]. *)
Definition created_at_desc (a b : Image.t) : Prop :=
  text_le (Image.created_at b) (Image.created_at a).

#[global] Instance created_at_desc_dec a b : Decision (created_at_desc a b).
Proof. unfold created_at_desc. apply _. Defined.

#[global] Instance created_at_desc_trans : Transitive created_at_desc.
Proof. intros a b c Hab Hbc. unfold created_at_desc in *. by etrans. Qed.

#[global] Instance created_at_desc_total : Total created_at_desc.
Proof. intros a b. unfold created_at_desc. apply total, _. Qed.

(** [SELECT * FROM images ORDER BY created_at DESC] on the rows of the
    table. Rows with the same [created_at] come in the order the sort
    leaves them in; the statement promises none. *)
Definition select_images_order_by_created_at_desc (rows : list Image.t)
  : list Image.t :=
  merge_sort created_at_desc rows.

(** ** A monad for asynchronous code that throws

    An [await]ed call either resolves or rejects, and a rejection is
    thrown at the [await]; the calls of one request run in sequence. *)

Inductive result (A : Type) :=
| Ok (a : A)
| Throw (e : exn).
Arguments Ok {A} a.
Arguments Throw {A} e.

Definition M (A : Type) : Type := state -> result A * state.

#[global] Instance M_ret : MRet M := fun A a s => (Ok a, s).

#[global] Instance M_bind : MBind M := fun A B f m s =>
  match m s with
  | (Ok a, s') => f a s'
  | (Throw e, s') => (Throw e, s')
  end.

Definition throw {A} (e : exn) : M A := fun s => (Throw e, s).

(** [try { m } catch (e) { h e }] *)
Definition try_catch {A} (m : M A) (h : exn -> M A) : M A := fun s =>
  match m s with
  | (Ok a, s') => (Ok a, s')
  | (Throw e, s') => h e s'
  end.

(** [if (c) { m }] *)
Definition when (c : bool) (m : M ()) : M () :=
  if c then m else mret ().

Definition modify (f : state -> state) : M () := fun s => (Ok (), f s).

Definition set_key (k : option jsstring) : M () :=
  modify (fun s => {| R2 := R2 s; DB := DB s; calls := calls s;
                      console := console s; key := k |}).

Definition get_key : M (option jsstring) := fun s => (Ok (key s), s).

Definition record_call (c : call) : M () :=
  modify (fun s => {| R2 := R2 s; DB := DB s; calls := calls s ++ [c];
                      console := console s; key := key s |}).

Definition console_log (l : log_line) : M () :=
  modify (fun s => {| R2 := R2 s; DB := DB s; calls := calls s;
                      console := console s ++ [l]; key := key s |}).

Definition set_R2 (f : gmap (list N) R2Object -> gmap (list N) R2Object) : M () :=
  modify (fun s => {| R2 := f (R2 s); DB := DB s; calls := calls s;
                      console := console s; key := key s |}).

Definition set_DB (f : list Image.t -> list Image.t) : M () :=
  modify (fun s => {| R2 := R2 s; DB := f (DB s); calls := calls s;
                      console := console s; key := key s |}).

(** ** The collaborators *)

Section Collaborators.
Context (E : env).

(** [await request.formData()] *)
Definition request_formData (request : Request) : M FormData :=
  match formData request with
  | inl e => throw e
  | inr fd => mret fd
  end.

(** [image.name] for [image = formData.get("image") as File], followed
    by [.replace]: reading a property of [null] throws, and so does
    calling [replace] on the [undefined] that a string entry has for
    [name]. The file is returned for the later uses of [image]. *)
Definition image_file (image : option FormDataEntryValue) : M File.t :=
  match image with
  | None =>
      throw (JsError (js "Cannot read properties of null (reading 'name')"))
  | Some (EntryString _) =>
      throw (JsError (js "Cannot read properties of undefined (reading 'replace')"))
  | Some (EntryFile f) => mret f
  end.

(** [await R2.put(key, image, { httpMetadata: { contentType: image.type } })]:
    the object is in the bucket when the call resolves, and the bucket
    is as before when it rejects. *)
Definition r2_put (k : jsstring) (image : File.t) : M () :=
  record_call (CallPut k image);;
  match R2_put E k image with
  | Some e => throw e
  | None =>
      set_R2 (insert k {| body := File.bytes image;
                          contentType := File.type image |})
  end.

(** [await R2.delete(key)] *)
Definition r2_delete (k : jsstring) : M () :=
  record_call (CallDelete k);;
  match R2_delete E k with
  | Some e => throw e
  | None => set_R2 (delete k)
  end.

(** [await fetch(url)] *)
Definition do_fetch (u : jsstring) : M (bool * jsstring * (exn + list N)) :=
  record_call (CallFetch u);;
  match fetch E u with
  | FetchRejects e => throw e
  | FetchResponse ok statusText buffer => mret (ok, statusText, buffer)
  end.

(** [await imageResponse.arrayBuffer()] *)
Definition arrayBuffer (buffer : exn + list N) : M (list N) :=
  match buffer with
  | inl e => throw e
  | inr b => mret b
  end.

(** [await AI.run("@cf/unum/uform-gen2-qwen-500m", { prompt, image })] *)
Definition ai_run (image : list N) : M ai_response :=
  record_call (CallAi image);;
  match AI_run E image with
  | AiRejects e => throw e
  | AiResolves r => mret r
  end.

(** [response.description] *)
Definition response_description (r : ai_response) : M (option jsstring) :=
  match r with
  | AiUndefined =>
      throw (JsError (js "Cannot read properties of undefined (reading 'description')"))
  | AiNull =>
      throw (JsError (js "Cannot read properties of null (reading 'description')"))
  | AiObject d => mret d
  end.

(** The next value of the [AUTOINCREMENT] column, for a table from
    which no row was deleted (the route deletes none) and whose ids are
    below the largest rowid: one more than the largest id in use. *)
Definition next_id (rows : list Image.t) : Z :=
  1 + foldr Z.max 0 (Image.id <$> rows).

(** [await DB.prepare("INSERT INTO images (url, name, description)
    VALUES (?, ?, ?)").bind(url, name, description).run()]: the row is
    in the table exactly when the statement reports success. *)
Definition db_insert (u n : jsstring) (d : option jsstring) : M bool :=
  record_call (CallInsert u n d);;
  match DB_insert E u n d with
  | RunRejects e => throw e
  | RunResult true =>
      set_DB (fun rows => rows ++ [Image.mk (next_id rows) u n d (CURRENT_TIMESTAMP E)]);;
      mret true
  | RunResult false => mret false
  end.

(** [await DB.prepare("SELECT * FROM images ORDER BY created_at DESC").all<Image>()] *)
Definition db_all : M (list Image.t) :=
  record_call CallSelect;;
  match DB_select E with
  | Some e => throw e
  | None => fun s => (Ok (select_images_order_by_created_at_desc (DB s)), s)
  end.

End Collaborators.

(** ** The route *)

Inductive ActionData :=
| ActionSuccess                      (* [{ success: true }] *)
| ActionError (error : jsstring).    (* [{ error }] *)

Record Response := { data : ActionData; status : Z }.

Inductive LoaderStatus := StatusSuccess | StatusError.

Record LoaderData := {
  loader_status : LoaderStatus;
  images : list Image.t;
  message : option jsstring
}.

Definition sentinel : jsstring := js "Description unavailable".

Definition loader (E : env) : M LoaderData :=
  try_catch
    (results ← db_all E;
     mret {| loader_status := StatusSuccess; images := results; message := None |})
    (fun error =>
       console_log (LogLoadFailed error);;
       mret {| loader_status := StatusError;
               images := [];
               message := Some (message_or (js "Failed to load images") error) |}).

Definition action (E : env) (request : Request) : M Response :=
  try_catch
    (fd ← request_formData request;
     let image := FormData_get fd (js "image") in
     set_key None;;
     try_catch
       (file ← image_file image;
        let k := derive_key (Date_now E) (File.name file) in
        set_key (Some k);;
        r2_put E k file;;
        let url := public_url (R2_PUBLIC_URL E) k in
        console_log (LogUrl url);;
        '(ok, statusText, buffer) ← do_fetch E url;
        when (negb ok)
          (throw (JsError (js "Failed to fetch uploaded image: " ++ statusText)));;
        imageBlob ← arrayBuffer buffer;
        description ←
          try_catch
            (response ← ai_run E imageBlob;
             response_description response)
            (fun aiError =>
               console_log (LogAiFailed aiError);;
               mret (Some sentinel));
        success ← db_insert E url (File.name file) description;
        when (negb success)
          (throw (JsError (js "Failed to save image details to database")));;
        mret {| data := ActionSuccess; status := 200 |})
       (fun error =>
          console_log (LogError error);;
          k ← get_key;
          when (truthy k)
            (try_catch
               (r2_delete E (default [] k))
               (fun deleteError => console_log (LogDeleteFailed deleteError)));;
          throw error))
    (fun error =>
       console_log (LogUploadError error);;
       mret {| data := ActionError (message_or (js "An unexpected error occurred") error);
               status := 500 |}).

(** ** Vocabulary of the properties *)

(** The read-back of the uploaded object fails with [e]: [fetch]
    rejects, the response is not [ok], or reading its body rejects. *)
Inductive readback_fails (E : env) (u : jsstring) : exn -> Prop :=
| fetch_rejects e :
    fetch E u = FetchRejects e -> readback_fails E u e
| fetch_not_ok statusText buffer :
    fetch E u = FetchResponse false statusText buffer ->
    readback_fails E u
      (JsError (js "Failed to fetch uploaded image: " ++ statusText))
| buffer_rejects statusText e :
    fetch E u = FetchResponse true statusText (inl e) ->
    readback_fails E u e.

(** The read-back yields the bytes [b]. *)
Definition readback_gives (E : env) (u : jsstring) (b : list N) : Prop :=
  exists statusText, fetch E u = FetchResponse true statusText (inr b).

(** The call of the description generator throws: [AI.run] rejects,
    or what it resolves to is [undefined] or [null], which have no
    property [description] to read. *)
Definition ai_fails (E : env) (b : list N) : Prop :=
  (exists e, AI_run E b = AiRejects e)
  \/ AI_run E b = AiResolves AiUndefined
  \/ AI_run E b = AiResolves AiNull.

(** The description that reaches the insert for an answer of the
    generator. *)
Definition description_of (o : ai_outcome) : option jsstring :=
  match o with
  | AiResolves (AiObject d) => d
  | AiResolves AiUndefined | AiResolves AiNull | AiRejects _ => Some sentinel
  end.

(** What [action] throws when the insert reports no success. *)
Definition not_saved : exn :=
  JsError (js "Failed to save image details to database").

(** The insert fails with [e]: it rejects, or it reports no success. *)
Inductive insert_fails (E : env) (u n : jsstring) (d : option jsstring)
  : exn -> Prop :=
| insert_rejects e :
    DB_insert E u n d = RunRejects e -> insert_fails E u n d e
| insert_unsuccessful :
    DB_insert E u n d = RunResult false ->
    insert_fails E u n d not_saved.

(** A failure after the upload: at the read-back or at the insert. *)
Inductive late_failure (E : env) (u n : jsstring) : exn -> Prop :=
| fails_at_readback e :
    readback_fails E u e -> late_failure E u n e
| fails_at_insert b e :
    readback_gives E u b ->
    insert_fails E u n (description_of (AI_run E b)) e ->
    late_failure E u n e.

(** The bucket after [delete(k)] was tried on bucket [m]. *)
Definition after_delete (E : env) (k : jsstring) (m : gmap (list N) R2Object)
  : gmap (list N) R2Object :=
  match R2_delete E k with
  | None => delete k m
  | Some _ => m
  end.

(** The response of [action] for a thrown [error]. *)
Definition error_response (error : exn) : Response :=
  {| data := ActionError (message_or (js "An unexpected error occurred") error);
     status := 500 |}.

(** The calls made between two states. *)
Definition new_calls (before after : state) : list call :=
  drop (length (calls before)) (calls after).

Definition new_console (before after : state) : list log_line :=
  drop (length (console before)) (console after).

Definition is_delete (c : call) : bool :=
  match c with
  | CallDelete _ => true
  | _ => false
  end.

(** Every record has its object in the bucket. *)
Definition no_orphans (base : jsstring) (s : state) : Prop :=
  forall row, row ∈ DB s ->
    exists k, Image.url row = public_url base k /\ is_Some (R2 s !! k).

(** No [delete] was called between two states. *)
Definition delete_never_invoked (before after : state) : Prop :=
  Forall (fun c => is_delete c = false) (new_calls before after).

(** The request is turned down as an error and nothing has happened:
    no key, no call, bucket and table as before. *)
Definition rejected_without_side_effect (E : env) (rq : Request) (s : state)
  : Prop :=
  let r := action E rq s in
  (exists m, r.1 = Ok {| data := ActionError m; status := 500 |})
  /\ key r.2 = None
  /\ calls r.2 = calls s
  /\ R2 r.2 = R2 s
  /\ DB r.2 = DB s.

(** Changing how one collaborator answers. *)
Definition with_R2_put (E : env) (f : jsstring -> File.t -> option exn) : env :=
  {| Date_now := Date_now E; R2_PUBLIC_URL := R2_PUBLIC_URL E;
     R2_put := f; R2_delete := R2_delete E; fetch := fetch E;
     AI_run := AI_run E; DB_insert := DB_insert E; DB_select := DB_select E;
     CURRENT_TIMESTAMP := CURRENT_TIMESTAMP E |}.

Definition with_R2_delete (E : env) (f : jsstring -> option exn) : env :=
  {| Date_now := Date_now E; R2_PUBLIC_URL := R2_PUBLIC_URL E;
     R2_put := R2_put E; R2_delete := f; fetch := fetch E;
     AI_run := AI_run E; DB_insert := DB_insert E; DB_select := DB_select E;
     CURRENT_TIMESTAMP := CURRENT_TIMESTAMP E |}.

Definition with_fetch (E : env) (f : jsstring -> fetch_outcome) : env :=
  {| Date_now := Date_now E; R2_PUBLIC_URL := R2_PUBLIC_URL E;
     R2_put := R2_put E; R2_delete := R2_delete E; fetch := f;
     AI_run := AI_run E; DB_insert := DB_insert E; DB_select := DB_select E;
     CURRENT_TIMESTAMP := CURRENT_TIMESTAMP E |}.

Definition with_AI_run (E : env) (f : list N -> ai_outcome) : env :=
  {| Date_now := Date_now E; R2_PUBLIC_URL := R2_PUBLIC_URL E;
     R2_put := R2_put E; R2_delete := R2_delete E; fetch := fetch E;
     AI_run := f; DB_insert := DB_insert E; DB_select := DB_select E;
     CURRENT_TIMESTAMP := CURRENT_TIMESTAMP E |}.

Definition with_DB_insert (E : env)
  (f : jsstring -> jsstring -> option jsstring -> run_outcome) : env :=
  {| Date_now := Date_now E; R2_PUBLIC_URL := R2_PUBLIC_URL E;
     R2_put := R2_put E; R2_delete := R2_delete E; fetch := fetch E;
     AI_run := AI_run E; DB_insert := f; DB_select := DB_select E;
     CURRENT_TIMESTAMP := CURRENT_TIMESTAMP E |}.

Definition with_DB_select (E : env) (o : option exn) : env :=
  {| Date_now := Date_now E; R2_PUBLIC_URL := R2_PUBLIC_URL E;
     R2_put := R2_put E; R2_delete := R2_delete E; fetch := fetch E;
     AI_run := AI_run E; DB_insert := DB_insert E; DB_select := o;
     CURRENT_TIMESTAMP := CURRENT_TIMESTAMP E |}.

Definition with_Date_now (E : env) (now : Z) : env :=
  {| Date_now := now; R2_PUBLIC_URL := R2_PUBLIC_URL E;
     R2_put := R2_put E; R2_delete := R2_delete E; fetch := fetch E;
     AI_run := AI_run E; DB_insert := DB_insert E; DB_select := DB_select E;
     CURRENT_TIMESTAMP := CURRENT_TIMESTAMP E |}.

(** ** Fixtures *)

Module Fixture.

(** Every collaborator answers well. *)
Definition env_ok : env := {|
  Date_now := 1700000000000;
  R2_PUBLIC_URL := js "https://pub.example";
  R2_put := fun _ _ => None;
  R2_delete := fun _ => None;
  fetch := fun _ => FetchResponse true (js "OK") (inr [137%N; 80%N; 78%N; 71%N]);
  AI_run := fun _ => AiResolves (AiObject (Some (js "a cat")));
  DB_insert := fun _ _ _ => RunResult true;
  DB_select := None;
  CURRENT_TIMESTAMP := js "2024-01-01 10:00:00"
|}.

Definition boom : exn := JsError (js "boom").

Definition env_put_fails : env := with_R2_put env_ok (fun _ _ => Some boom).
Definition env_fetch_404 : env :=
  with_fetch env_ok (fun _ => FetchResponse false (js "Not Found") (inr [])).
Definition env_ai_fails : env := with_AI_run env_ok (fun _ => AiRejects boom).
Definition env_insert_soft : env :=
  with_DB_insert env_ok (fun _ _ _ => RunResult false).
Definition env_select_fails : env := with_DB_select env_ok (Some boom).

Definition empty_state : state :=
  {| R2 := ∅; DB := []; calls := []; console := []; key := None |}.

Definition cat : File.t :=
  File.mk (js "cat.png") (js "image/png")
    [137%N; 80%N; 78%N; 71%N; 13%N; 10%N; 26%N; 10%N; 0%N; 0%N].
Definition unnamed : File.t := File.mk [] (js "image/png") [137%N; 80%N].
Definition zero_bytes : File.t := File.mk (js "cat.png") (js "image/png") [].

Definition upload (f : File.t) : Request :=
  {| formData := inr [(js "image", EntryFile f)] |}.
Definition empty_form : Request := {| formData := inr [] |}.

Definition row (i : Z) (created : string) : Image.t :=
  Image.mk i (js "https://pub.example/images/1-a.png") (js "a.png") None
    (js created).

Definition three_rows : state :=
  {| R2 := ∅;
     DB := [row 1 "2024-01-01 10:00:00"; row 2 "2024-01-01 10:00:01";
            row 3 "2024-01-02 09:00:00"];
     calls := []; console := []; key := None |}.

End Fixture.

(** ** The page

    The component [Images] of the route: its state cells, its handlers
    and what it submits. *)

(** [isErrorResponse]: ["error" in data]. *)
Definition isErrorResponse (d : ActionData) : bool :=
  match d with
  | ActionError _ => true
  | ActionSuccess => false
  end.

Module Page.

(** [s.startsWith(p)] *)
Fixpoint startsWith (s p : jsstring) {struct p} : bool :=
  match p, s with
  | [], _ => true
  | c :: p', d :: s' => (c =? d)%N && startsWith s' p'
  | _ :: _, [] => false
  end.

(** The cells of [useState], the file input behind [fileInputRef]
    ([None] when no input is mounted, otherwise its [files]), and the
    object URLs that were created and not revoked. *)
Record t := mk {
  isDragging : bool;
  previewUrl : option jsstring;
  image : option File.t;
  fileInput : option (list File.t);
  objectURLs : gset (list N)
}.

(** The first render: nothing chosen, the input shown and empty. *)
Definition initial : t :=
  {| isDragging := false; previewUrl := None; image := None;
     fileInput := Some []; objectURLs := ∅ |}.

(** What happens to the page. [url] is what [URL.createObjectURL]
    answers when the handler calls it. *)
Inductive event :=
| Change (files : list File.t) (url : jsstring)   (* [onChange] of the input *)
| Drop (files : list File.t) (url : jsstring)     (* [onDrop] of the form *)
| DragOver                                        (* [onDragOver] *)
| DragLeave                                       (* [onDragLeave] *)
| Remove.                                         (* click on "Remove" *)

(** [handleFileChange] *)
Definition handleFileChange (files : list File.t) (url : jsstring) (p : t) : t :=
  match head files with
  | Some file =>
      {| isDragging := isDragging p;
         previewUrl := Some url;
         image := Some file;
         fileInput := fileInput p;
         objectURLs := {[url]} ∪ objectURLs p |}
  | None => p
  end.

(** [handleDrop]: the dropped file is previewed and written to the
    input when there is one; [setImage] is not called. *)
Definition handleDrop (files : list File.t) (url : jsstring) (p : t) : t :=
  match head files with
  | Some file =>
      if startsWith (File.type file) (js "image/")
      then {| isDragging := false;
              previewUrl := Some url;
              image := image p;
              fileInput := (fun _ => [file]) <$> fileInput p;
              objectURLs := {[url]} ∪ objectURLs p |}
      else {| isDragging := false; previewUrl := previewUrl p;
              image := image p; fileInput := fileInput p;
              objectURLs := objectURLs p |}
  | None =>
      {| isDragging := false; previewUrl := previewUrl p;
         image := image p; fileInput := fileInput p;
         objectURLs := objectURLs p |}
  end.

Definition setIsDragging (b : bool) (p : t) : t :=
  {| isDragging := b; previewUrl := previewUrl p; image := image p;
     fileInput := fileInput p; objectURLs := objectURLs p |}.

(** The [onClick] of "Remove": [setPreviewUrl(null)], and the value of
    the input is cleared when there is one. *)
Definition removeClick (p : t) : t :=
  {| isDragging := isDragging p;
     previewUrl := None;
     image := image p;
     fileInput := (fun _ => []) <$> fileInput p;
     objectURLs := objectURLs p |}.

(** The browser puts the chosen files in the input before it fires
    [onChange]. *)
Definition chooseFiles (files : list File.t) (p : t) : t :=
  {| isDragging := isDragging p; previewUrl := previewUrl p;
     image := image p; fileInput := (fun _ => files) <$> fileInput p;
     objectURLs := objectURLs p |}.

Definition handle (ev : event) (p : t) : t :=
  match ev with
  | Change files url => handleFileChange files url (chooseFiles files p)
  | Drop files url => handleDrop files url p
  | DragOver => setIsDragging true p
  | DragLeave => setIsDragging false p
  | Remove => removeClick p
  end.

(** The render after a handler ran from [old] to [new]: the input is
    in the page exactly when [previewUrl] is falsy (a fresh input is
    empty), and when [previewUrl] changed the cleanup of the effect
    revokes the one that was shown, if it was truthy. *)
Definition commit (old new : t) : t :=
  {| isDragging := isDragging new;
     previewUrl := previewUrl new;
     image := image new;
     fileInput :=
       if truthy (previewUrl new) then None
       else Some (default [] (fileInput new));
     objectURLs :=
       if decide (previewUrl old = previewUrl new) then objectURLs new
       else if truthy (previewUrl old)
            then objectURLs new ∖ {[default [] (previewUrl old)]}
            else objectURLs new |}.

Definition step (p : t) (ev : event) : t := commit p (handle ev p).

Definition run (evs : list event) (p : t) : t := foldl step p evs.

(** The request of [onSubmit]: a new form with the field [image] when
    the cell [image] holds a file, posted to the route. *)
Definition onSubmit (p : t) : Request :=
  {| formData := inr match image p with
                     | Some f => [(js "image", EntryFile f)]
                     | None => []
                     end |}.

(** The object URL that comes with the event is not the empty string
    (the ones of [URL.createObjectURL] start with ["blob:"]). *)
Definition url_given (ev : event) : bool :=
  match ev with
  | Change _ url | Drop _ url => truthy (Some url)
  | _ => true
  end.

(** The event is a choice of a file in the input. *)
Definition chooses (ev : event) : bool :=
  match ev with
  | Change (_ :: _) _ => true
  | _ => false
  end.

End Page.

(** The page is tidy: the input is there, and empty, exactly when
    nothing is previewed, the only object URL alive is the one
    previewed, and that one is not the empty string. *)
Definition tidy (p : Page.t) : Prop :=
  Page.fileInput p = match Page.previewUrl p with
                     | Some _ => None
                     | None => Some []
                     end
  /\ Page.objectURLs p = match Page.previewUrl p with
                         | Some u => {[u]}
                         | None => ∅
                         end
  /\ Page.previewUrl p <> Some [].

(** ** The outcomes of [action] *)

(** What one run of [action] from [s] comes to. *)
Inductive outcome (E : env) (rq : Request) (s : state) : Prop :=
| unreadable_form e :
    formData rq = inl e ->
    (action E rq s).1 = Ok (error_response e) ->
    calls (action E rq s).2 = calls s ->
    R2 (action E rq s).2 = R2 s ->
    DB (action E rq s).2 = DB s ->
    outcome E rq s
| no_file fd e :
    formData rq = inr fd ->
    (forall f, FormData_get fd (js "image") <> Some (EntryFile f)) ->
    (action E rq s).1 = Ok (error_response e) ->
    calls (action E rq s).2 = calls s ->
    R2 (action E rq s).2 = R2 s ->
    DB (action E rq s).2 = DB s ->
    outcome E rq s
| put_failed fd file e :
    formData rq = inr fd ->
    FormData_get fd (js "image") = Some (EntryFile file) ->
    let k := derive_key (Date_now E) (File.name file) in
    R2_put E k file = Some e ->
    (action E rq s).1 = Ok (error_response e) ->
    calls (action E rq s).2 = calls s ++ [CallPut k file; CallDelete k] ->
    R2 (action E rq s).2 = after_delete E k (R2 s) ->
    DB (action E rq s).2 = DB s ->
    outcome E rq s
| failed_late fd file e mid :
    formData rq = inr fd ->
    FormData_get fd (js "image") = Some (EntryFile file) ->
    let k := derive_key (Date_now E) (File.name file) in
    let u := public_url (R2_PUBLIC_URL E) k in
    R2_put E k file = None ->
    late_failure E u (File.name file) e ->
    (action E rq s).1 = Ok (error_response e) ->
    calls (action E rq s).2 = calls s ++ CallPut k file :: mid ++ [CallDelete k] ->
    Forall (fun c => is_delete c = false) mid ->
    R2 (action E rq s).2
    = after_delete E k (<[k:={| body := File.bytes file;
                                contentType := File.type file |}]> (R2 s)) ->
    DB (action E rq s).2 = DB s ->
    outcome E rq s
| committed fd file b :
    formData rq = inr fd ->
    FormData_get fd (js "image") = Some (EntryFile file) ->
    let k := derive_key (Date_now E) (File.name file) in
    let u := public_url (R2_PUBLIC_URL E) k in
    let d := description_of (AI_run E b) in
    R2_put E k file = None ->
    readback_gives E u b ->
    DB_insert E u (File.name file) d = RunResult true ->
    (action E rq s).1 = Ok {| data := ActionSuccess; status := 200 |} ->
    calls (action E rq s).2
    = calls s ++ [CallPut k file; CallFetch u; CallAi b;
                  CallInsert u (File.name file) d] ->
    R2 (action E rq s).2
    = <[k:={| body := File.bytes file; contentType := File.type file |}]> (R2 s) ->
    DB (action E rq s).2
    = DB s ++ [Image.mk (next_id (DB s)) u (File.name file) d
                 (CURRENT_TIMESTAMP E)] ->
    outcome E rq s.

(** The code unit is a decimal digit. *)
Definition is_digit (c : N) : bool := ((48 <=? c) && (c <=? 57))%N.

(** More fixtures. *)
Module Fixture2.

Definition dog : File.t :=
  File.mk (js "dog.png") (js "image/png") [137%N; 80%N; 78%N; 71%N; 1%N].

Definition notes : File.t :=
  File.mk (js "notes.txt") (js "text/plain") [104%N; 105%N].

(** A state in which the key of the next upload of [Fixture.cat] is
    already taken by a record and its blob. *)
Definition taken : state :=
  {| R2 := {[ derive_key 1700000000000 (js "cat.png")
              := {| body := [1%N]; contentType := js "image/png" |} ]};
     DB := [Image.mk 1
              (public_url (js "https://pub.example")
                 (derive_key 1700000000000 (js "cat.png")))
              (js "cat.png") None (js "2024-01-01 09:00:00")];
     calls := []; console := []; key := None |}.

(** A state with one record and its blob, under a key that no upload
    of the fixtures derives. *)
Definition stocked : state :=
  {| R2 := {[ derive_key 1600000000000 (js "dog.png")
              := {| body := File.bytes dog; contentType := js "image/png" |} ]};
     DB := [Image.mk 1
              (public_url (js "https://pub.example")
                 (derive_key 1600000000000 (js "dog.png")))
              (js "dog.png") (Some (js "a dog")) (js "2020-09-13 12:26:40")];
     calls := []; console := []; key := None |}.

Definition spaced : File.t :=
  File.mk (js "my cat pic.png") (js "image/png") [137%N; 80%N; 78%N; 71%N].

(** What the database throws when [undefined] is bound. *)
Definition d1_type_error : exn :=
  JsError (js "D1_TYPE_ERROR: Type 'undefined' not supported for value 'undefined'").

(** The generator resolves to an object without [description]; the
    database does not take [undefined]. *)
Definition env_ai_malformed : env :=
  with_DB_insert
    (with_AI_run Fixture.env_ok (fun _ => AiResolves (AiObject None)))
    (fun _ _ d => match d with
                  | None => RunRejects d1_type_error
                  | Some _ => RunResult true
                  end).

(** [Fixture.env_ok] with an insert after every row of
    [Fixture.three_rows]. *)
Definition env_later : env :=
  {| Date_now := Date_now Fixture.env_ok;
     R2_PUBLIC_URL := R2_PUBLIC_URL Fixture.env_ok;
     R2_put := R2_put Fixture.env_ok; R2_delete := R2_delete Fixture.env_ok;
     fetch := fetch Fixture.env_ok; AI_run := AI_run Fixture.env_ok;
     DB_insert := DB_insert Fixture.env_ok; DB_select := DB_select Fixture.env_ok;
     CURRENT_TIMESTAMP := js "2024-01-02 09:00:01" |}.

(** The same generator with a database that takes anything. *)
Definition env_ai_malformed_lenient : env :=
  with_AI_run Fixture.env_ok (fun _ => AiResolves (AiObject None)).

End Fixture2.

(** * Properties *)

(** ** Strings and keys *)

Section Strings.

Lemma N_of_ascii_inj : Inj (=) (=) N_of_ascii.
Proof.
  intros a b Hab.
  rewrite <- (ascii_N_embedding a), <- (ascii_N_embedding b). by rewrite Hab.
Qed.

Lemma js_inj : Inj (=) (=) js.
Proof.
  intros x y H. unfold js in H.
  apply (list_fmap_eq_inj _ N_of_ascii_inj) in H.
  rewrite <- (String.string_of_list_ascii_of_string x),
    <- (String.string_of_list_ascii_of_string y). by rewrite H.
Qed.

Lemma number_to_string_inj : Inj (=) (=) number_to_string.
Proof.
  intros x y H. unfold number_to_string in H.
  by apply js_inj, (inj pretty) in H.
Qed.

Lemma derive_key_now_inj name t1 t2 :
  derive_key t1 name = derive_key t2 name -> t1 = t2.
Proof.
  unfold derive_key. intros H.
  apply app_inv_head, app_inv_tail in H.
  by apply number_to_string_inj.
Qed.

Lemma truthy_derive_key now name : truthy (Some (derive_key now name)) = true.
Proof. reflexivity. Qed.

Lemma replace_ws_runs_app in_run s t :
  replace_ws_runs in_run (s ++ t)
  = replace_ws_runs in_run s ++ replace_ws_runs (run_open in_run s) t.
Proof.
  revert in_run. induction s as [|c s IH]; intros in_run; [done|].
  cbn [app replace_ws_runs run_open foldl]. fold (run_open (is_whitespace c) s).
  destruct (is_whitespace c) eqn:Hc, in_run; rewrite IH; done.
Qed.

Lemma replace_ws_runs_whitespace in_run w :
  w <> [] -> Forall (fun c => is_whitespace c = true) w ->
  replace_ws_runs in_run w = (if in_run then [] else [hyphen])
  /\ run_open in_run w = true.
Proof.
  intros Hne Hw. revert in_run Hne.
  induction Hw as [|c w Hc Hw IH]; intros in_run Hne; [done|].
  cbn [replace_ws_runs run_open foldl]. fold (run_open (is_whitespace c) w).
  rewrite Hc. destruct w as [|c' w'].
  - by destruct in_run.
  - destruct (IH true) as [IH1 IH2]; [done|].
    rewrite IH1, IH2. by destruct in_run.
Qed.

Lemma replace_ws_runs_no_whitespace in_run s :
  Forall (fun c => is_whitespace c = false) (replace_ws_runs in_run s).
Proof.
  revert in_run. induction s as [|c s IH]; intros in_run; [constructor|].
  cbn [replace_ws_runs]. destruct (is_whitespace c) eqn:Hc.
  - destruct in_run; [apply IH|]. constructor; [done|apply IH].
  - constructor; [done|apply IH].
Qed.

End Strings.

(** ** Running the route *)

#[local] Arguments derive_key : simpl never.
#[local] Arguments public_url : simpl never.
#[local] Arguments js : simpl never.
#[local] Arguments truthy : simpl never.
#[local] Arguments message_or : simpl never.
#[local] Arguments sentinel : simpl never.
#[local] Arguments select_images_order_by_created_at_desc : simpl never.

Create HintDb route.
#[local] Hint Unfold action loader request_formData image_file r2_put r2_delete
  do_fetch arrayBuffer ai_run response_description db_insert db_all
  set_key get_key record_call console_log set_R2 set_DB modify
  try_catch when throw mbind M_bind mret M_ret : route.

(** Unfold the route and the monad, then compute. *)
Ltac run := autounfold with route in *; cbn.

(** Follow one known answer of a collaborator. *)
Ltac follow H := rewrite ?H; cbn; rewrite ?truthy_derive_key; cbn.

(** Split on every answer that is still open. *)
Ltac split_answers :=
  repeat match goal with
         | |- context [match ?x with _ => _ end] =>
             lazymatch x with
             | context [match _ with _ => _ end] => fail
             | _ => destruct x eqn:?; cbn; rewrite ?truthy_derive_key; cbn
             end
         end.

Section Upload.

Context (E : env) (rq : Request) (fd : FormData) (file : File.t) (s : state).
Hypothesis Hform : formData rq = inr fd.
Hypothesis Hfile : FormData_get fd (js "image") = Some (EntryFile file).

Local Abbreviation k := (derive_key (Date_now E) (File.name file)).
Local Abbreviation u := (public_url (R2_PUBLIC_URL E) k).
Local Abbreviation n := (File.name file).
Local Abbreviation obj := {| body := File.bytes file; contentType := File.type file |}.
Local Abbreviation r := (action E rq s).

Lemma action_put_fails e :
  R2_put E k file = Some e ->
  r.1 = Ok (error_response e)
  /\ calls r.2 = calls s ++ [CallPut k file; CallDelete k]
  /\ R2 r.2 = after_delete E k (R2 s)
  /\ DB r.2 = DB s
  /\ key r.2 = Some k.
Proof.
  intros Hput. unfold after_delete. run.
  follow Hform. follow Hfile. follow Hput.
  destruct (R2_delete E k) eqn:Hdel; follow Hdel;
    by rewrite <- ?app_assoc.
Qed.

Lemma action_readback_fails e :
  R2_put E k file = None -> readback_fails E u e ->
  r.1 = Ok (error_response e)
  /\ calls r.2 = calls s ++ [CallPut k file; CallFetch u; CallDelete k]
  /\ R2 r.2 = after_delete E k (<[k:=obj]> (R2 s))
  /\ DB r.2 = DB s
  /\ key r.2 = Some k.
Proof.
  intros Hput Hrb. unfold after_delete. run.
  follow Hform. follow Hfile. follow Hput.
  destruct Hrb as [e Hf | st b Hf | st e Hf]; follow Hf;
    destruct (R2_delete E k) eqn:Hdel; follow Hdel;
    by rewrite <- ?app_assoc.
Qed.

Lemma action_insert_fails b e :
  R2_put E k file = None -> readback_gives E u b ->
  insert_fails E u n (description_of (AI_run E b)) e ->
  r.1 = Ok (error_response e)
  /\ calls r.2 = calls s ++ [CallPut k file; CallFetch u; CallAi b;
                             CallInsert u n (description_of (AI_run E b));
                             CallDelete k]
  /\ R2 r.2 = after_delete E k (<[k:=obj]> (R2 s))
  /\ DB r.2 = DB s
  /\ key r.2 = Some k.
Proof.
  intros Hput [st Hf] Hins. unfold after_delete. run.
  follow Hform. follow Hfile. follow Hput. follow Hf.
  destruct (AI_run E b) as [ae | [| |d]] eqn:Hai; cbn in *;
    destruct Hins as [e Hi | Hi]; follow Hi;
    destruct (R2_delete E k) eqn:Hdel; follow Hdel;
    by rewrite <- ?app_assoc.
Qed.

Lemma action_succeeds b :
  R2_put E k file = None -> readback_gives E u b ->
  DB_insert E u n (description_of (AI_run E b)) = RunResult true ->
  r.1 = Ok {| data := ActionSuccess; status := 200 |}
  /\ calls r.2 = calls s ++ [CallPut k file; CallFetch u; CallAi b;
                             CallInsert u n (description_of (AI_run E b))]
  /\ R2 r.2 = <[k:=obj]> (R2 s)
  /\ DB r.2 = DB s ++ [Image.mk (next_id (DB s)) u n
                         (description_of (AI_run E b)) (CURRENT_TIMESTAMP E)]
  /\ key r.2 = Some k.
Proof.
  intros Hput [st Hf] Hi. run.
  follow Hform. follow Hfile. follow Hput. follow Hf.
  destruct (AI_run E b) as [ae | [| |d]] eqn:Hai; cbn in *; follow Hi;
    by rewrite <- ?app_assoc.
Qed.

Lemma action_late_failure e :
  R2_put E k file = None -> late_failure E u n e ->
  r.1 = Ok (error_response e)
  /\ (exists mid,
        calls r.2 = calls s ++ CallPut k file :: mid ++ [CallDelete k]
        /\ Forall (fun c => is_delete c = false) mid)
  /\ R2 r.2 = after_delete E k (<[k:=obj]> (R2 s))
  /\ DB r.2 = DB s.
Proof.
  intros Hput [e' Hrb | b e' Hrb Hins].
  - destruct (action_readback_fails e' Hput Hrb) as (H1 & H2 & H3 & H4 & _).
    split; [done|]. split; [|done].
    exists [CallFetch u]. split; [exact H2|]. by repeat constructor.
  - destruct (action_insert_fails b e' Hput Hrb Hins) as (H1 & H2 & H3 & H4 & _).
    split; [done|]. split; [|done].
    exists [CallFetch u; CallAi b; CallInsert u n (description_of (AI_run E b))].
    split; [exact H2|]. by repeat constructor.
Qed.

End Upload.

(** ** Compensation *)

Section Compensation.

Context (E : env) (rq : Request) (fd : FormData) (file : File.t) (s : state).

Local Abbreviation k := (derive_key (Date_now E) (File.name file)).
Local Abbreviation u := (public_url (R2_PUBLIC_URL E) k).
Local Abbreviation n := (File.name file).
Local Abbreviation r := (action E rq s).

Lemma after_delete_lookup m :
  R2_delete E k = None -> after_delete E k m !! k = None.
Proof. intros H. unfold after_delete. rewrite H. apply lookup_delete_eq. Qed.



(** C2, as the route has it: when the put itself fails, [action] still
    calls [delete] once on the key, which it derived before the put,
    and answers with the error of the put; it makes no other call and
    inserts no record. *)
Theorem put_failure_still_deletes e :
  formData rq = inr fd ->
  FormData_get fd (js "image") = Some (EntryFile file) ->
  R2_put E k file = Some e ->
  r.1 = Ok (error_response e)
  /\ calls r.2 = calls s ++ [CallPut k file; CallDelete k]
  /\ R2 r.2 = after_delete E k (R2 s)
  /\ DB r.2 = DB s.
Proof.
  intros Hform Hfile Hput.
  destruct (action_put_fails E rq fd file s Hform Hfile e Hput)
    as (H1 & H2 & H3 & H4 & _).
  done.
Qed.

End Compensation.

(** ** Input without a file *)

(** C3, as the route has it: a request whose form has no file under
    [image] (no such field, or a plain string) is turned down before
    anything happens: no key, no call, bucket and table untouched. *)
Theorem missing_file_rejected E rq fd s :
  formData rq = inr fd ->
  (forall f, FormData_get fd (js "image") <> Some (EntryFile f)) ->
  rejected_without_side_effect E rq s.
Proof.
  intros Hform Hnofile. unfold rejected_without_side_effect. run.
  follow Hform.
  destruct (FormData_get fd (js "image")) as [[f | str] |] eqn:Hget; cbn.
  - by destruct (Hnofile f).
  - split; [by eexists|done].
  - split; [by eexists|done].
Qed.

(** ** Degraded description *)

Section Description.

Context (E : env) (rq : Request) (fd : FormData) (file : File.t) (s : state).

Local Abbreviation k := (derive_key (Date_now E) (File.name file)).
Local Abbreviation u := (public_url (R2_PUBLIC_URL E) k).
Local Abbreviation n := (File.name file).
Local Abbreviation r := (action E rq s).

Lemma description_of_failure b :
  ai_fails E b -> description_of (AI_run E b) = Some sentinel.
Proof. by intros [[e ->] | [-> | ->]]. Qed.

(** C4, as the route has it: when the call of the description
    generator throws ([AI.run] rejects, or resolves to [undefined] or
    [null] so that reading [description] throws), [action] goes on: the
    insert is called with the description ["Description unavailable"],
    and when the insert reports success the answer is the success
    response, no delete is called, the blob stays in the bucket and the
    record with that description is in the table. *)
Theorem failed_description_is_replaced b :
  formData rq = inr fd ->
  FormData_get fd (js "image") = Some (EntryFile file) ->
  R2_put E k file = None ->
  readback_gives E u b ->
  ai_fails E b ->
  sentinel = js "Description unavailable"
  /\ (exists post,
        calls r.2 = calls s ++ [CallPut k file; CallFetch u; CallAi b;
                                CallInsert u n (Some sentinel)] ++ post)
  /\ (DB_insert E u n (Some sentinel) = RunResult true ->
      r.1 = Ok {| data := ActionSuccess; status := 200 |}
      /\ calls r.2 = calls s ++ [CallPut k file; CallFetch u; CallAi b;
                                 CallInsert u n (Some sentinel)]
      /\ R2 r.2 = <[k:={| body := File.bytes file;
                          contentType := File.type file |}]> (R2 s)
      /\ DB r.2 = DB s ++ [Image.mk (next_id (DB s)) u n (Some sentinel)
                             (CURRENT_TIMESTAMP E)]).
Proof.
  intros Hform Hfile Hput Hrb Hai.
  pose proof (description_of_failure b Hai) as Hd.
  split; [done|]. split.
  - destruct (DB_insert E u n (Some sentinel)) as [e | [|]] eqn:Hi.
    + destruct (action_insert_fails E rq fd file s Hform Hfile b e Hput Hrb)
        as (_ & H2 & _); [rewrite Hd; by constructor|].
      rewrite Hd in H2. by exists [CallDelete k].
    + destruct (action_succeeds E rq fd file s Hform Hfile b Hput Hrb)
        as (_ & H2 & _); [by rewrite Hd|].
      rewrite Hd in H2. exists []. by rewrite app_nil_r.
    + destruct (action_insert_fails E rq fd file s Hform Hfile b not_saved Hput Hrb)
        as (_ & H2 & _); [rewrite Hd; by apply insert_unsuccessful|].
      rewrite Hd in H2. by exists [CallDelete k].
  - intros Hi.
    destruct (action_succeeds E rq fd file s Hform Hfile b Hput Hrb)
      as (H1 & H2 & H3 & H4 & _); [by rewrite Hd|].
    rewrite Hd in H2, H4. done.
Qed.

(** ** Insert that reports no success *)

(** C5: when the insert resolves with [success = false], [action] does
    exactly what it does when the insert throws the error
    ["Failed to save image details to database"]: the calls end with
    one [delete] of the key, the only delete of the attempt, no record
    is added, and the answer is that error. *)
Theorem soft_insert_failure_is_hard b :
  formData rq = inr fd ->
  FormData_get fd (js "image") = Some (EntryFile file) ->
  R2_put E k file = None ->
  readback_gives E u b ->
  DB_insert E u n (description_of (AI_run E b)) = RunResult false ->
  r.1 = Ok (error_response not_saved)
  /\ new_calls s r.2 = [CallPut k file; CallFetch u; CallAi b;
                        CallInsert u n (description_of (AI_run E b));
                        CallDelete k]
  /\ filter (fun c => is_delete c = true) (new_calls s r.2) = [CallDelete k]
  /\ DB r.2 = DB s
  /\ r = action (with_DB_insert E (fun _ _ _ => RunRejects not_saved)) rq s.
Proof.
  intros Hform Hfile Hput Hrb Hi.
  destruct (action_insert_fails E rq fd file s Hform Hfile b not_saved Hput Hrb)
    as (H1 & H2 & _ & H4 & _); [by apply insert_unsuccessful|].
  split; [done|].
  assert (Hnew : new_calls s r.2 = [CallPut k file; CallFetch u; CallAi b;
                        CallInsert u n (description_of (AI_run E b));
                        CallDelete k]).
  { unfold new_calls. rewrite H2. by rewrite drop_app_length. }
  split; [done|]. split; [by rewrite Hnew|]. split; [done|].
  destruct Hrb as [st Hf]. run.
  follow Hform. follow Hfile. follow Hput. follow Hf.
  destruct (AI_run E b) as [ae | [| |d]] eqn:Hai; cbn in *; follow Hi; done.
Qed.

End Description.

(** ** Failure of the compensating delete *)

Ltac normalise_trace :=
  unfold new_calls, new_console in *; cbn in *;
  rewrite <- ?app_assoc in *; rewrite ?drop_app_length in *;
  rewrite ?drop_all in *; cbn in *.

Ltac pick_call H :=
  repeat (apply elem_of_cons in H as [H | H]; [try discriminate H|]);
  [.. | by apply elem_of_nil in H].

Lemma action_total E rq s : exists resp, (action E rq s).1 = Ok resp.
Proof. run. split_answers; by eexists. Qed.

Lemma delete_irrelevant_for_response E del rq s :
  (action (with_R2_delete E del) rq s).1 = (action E rq s).1.
Proof. run. split_answers; done. Qed.

Lemma delete_failure_logged E rq s k de :
  CallDelete k ∈ new_calls s (action E rq s).2 ->
  R2_delete E k = Some de ->
  LogDeleteFailed de ∈ new_console s (action E rq s).2.
Proof.
  run. split_answers; intros Hin Hdel; normalise_trace;
    pick_call Hin; simplify_eq; set_solver.
Qed.

(** C6: a failure of the compensating delete never reaches the caller.
    The answer of [action] is the same whatever the delete does, it is
    always a response and never a throw, after a failed put, read-back
    or insert it carries the error of that step, and a delete that
    failed is written to the console. *)
Theorem delete_failure_is_swallowed E rq s :
  (forall del, (action (with_R2_delete E del) rq s).1 = (action E rq s).1)
  /\ (exists resp, (action E rq s).1 = Ok resp)
  /\ (forall fd file e,
        formData rq = inr fd ->
        FormData_get fd (js "image") = Some (EntryFile file) ->
        let k := derive_key (Date_now E) (File.name file) in
        R2_put E k file = Some e
        \/ (R2_put E k file = None
            /\ late_failure E (public_url (R2_PUBLIC_URL E) k) (File.name file) e) ->
        (action E rq s).1 = Ok (error_response e))
  /\ (forall k de,
        CallDelete k ∈ new_calls s (action E rq s).2 ->
        R2_delete E k = Some de ->
        LogDeleteFailed de ∈ new_console s (action E rq s).2).
Proof.
  split; [intros del; apply delete_irrelevant_for_response|].
  split; [apply action_total|].
  split; [|apply delete_failure_logged].
  intros fd file e Hform Hfile k [Hput | [Hput Hlate]].
  - by destruct (action_put_fails E rq fd file s Hform Hfile e Hput).
  - by destruct (action_late_failure E rq fd file s Hform Hfile e Hput Hlate).
Qed.

(** ** Store keys *)

Lemma action_key E rq fd file s :
  formData rq = inr fd ->
  FormData_get fd (js "image") = Some (EntryFile file) ->
  key (action E rq s).2 = Some (derive_key (Date_now E) (File.name file))
  /\ exists post,
       calls (action E rq s).2
       = calls s ++ CallPut (derive_key (Date_now E) (File.name file)) file :: post.
Proof.
  intros Hform Hfile. run. follow Hform. follow Hfile.
  split_answers; (split; [done|]); rewrite <- ?app_assoc; by eexists.
Qed.

Lemma sanitize_without_whitespace s :
  Forall (fun c => is_whitespace c = false) s -> sanitize s = s.
Proof.
  unfold sanitize. induction 1 as [|c s Hc _ IH]; [done|].
  cbn [replace_ws_runs]. by rewrite Hc, IH.
Qed.

Lemma replace_ws_runs_fresh_start in_run t :
  match t with
  | c :: _ => is_whitespace c = false
  | [] => True
  end ->
  replace_ws_runs in_run t = sanitize t.
Proof. destruct t as [|c t]; [done|]. intros Hc. unfold sanitize. cbn. by rewrite Hc. Qed.

(** C7: the key under which [action] puts the file is ["images/"], the
    decimal timestamp, a hyphen and the sanitized file name; sanitizing
    keeps every character that is not whitespace where it is and puts
    one hyphen for the whitespace between them, so no whitespace is
    left; two uploads of files with the same name at different
    timestamps get different keys. *)
Theorem store_keys_differ_by_timestamp E1 E2 rq1 rq2 fd1 fd2 f1 f2 s1 s2 :
  formData rq1 = inr fd1 ->
  FormData_get fd1 (js "image") = Some (EntryFile f1) ->
  formData rq2 = inr fd2 ->
  FormData_get fd2 (js "image") = Some (EntryFile f2) ->
  File.name f1 = File.name f2 ->
  Date_now E1 <> Date_now E2 ->
  let k1 := js "images/" ++ number_to_string (Date_now E1) ++ js "-"
            ++ sanitize (File.name f1) in
  let k2 := js "images/" ++ number_to_string (Date_now E2) ++ js "-"
            ++ sanitize (File.name f2) in
  key (action E1 rq1 s1).2 = Some k1
  /\ key (action E2 rq2 s2).2 = Some k2
  /\ (exists post, calls (action E1 rq1 s1).2 = calls s1 ++ CallPut k1 f1 :: post)
  /\ (exists post, calls (action E2 rq2 s2).2 = calls s2 ++ CallPut k2 f2 :: post)
  /\ Forall (fun c => is_whitespace c = false) (sanitize (File.name f1))
  /\ sanitize [] = []
  /\ (forall c rest,
        is_whitespace c = false -> sanitize (c :: rest) = c :: sanitize rest)
  /\ (forall w rest,
        w <> [] -> Forall (fun c => is_whitespace c = true) w ->
        match rest with c :: _ => is_whitespace c = false | [] => True end ->
        sanitize (w ++ rest) = hyphen :: sanitize rest)
  /\ k1 <> k2.
Proof.
  intros Hform1 Hfile1 Hform2 Hfile2 Hname Hnow k1 k2.
  destruct (action_key E1 rq1 fd1 f1 s1 Hform1 Hfile1) as [Hk1 Hc1].
  destruct (action_key E2 rq2 fd2 f2 s2 Hform2 Hfile2) as [Hk2 Hc2].
  split; [done|]. split; [done|]. split; [done|]. split; [done|].
  split; [apply replace_ws_runs_no_whitespace|].
  split; [done|]. split; [|split].
  - intros c rest Hc. unfold sanitize. cbn [replace_ws_runs]. by rewrite Hc.
  - intros w rest Hne Hw Hrest. unfold sanitize.
    rewrite replace_ws_runs_app.
    destruct (replace_ws_runs_whitespace false w Hne Hw) as [-> ->].
    by rewrite (replace_ws_runs_fresh_start true rest Hrest).
  - subst k1 k2. rewrite <- Hname. intros Heq.
    by apply (derive_key_now_inj (File.name f1)) in Heq.
Qed.

Lemma run_open_last in_run s :
  run_open in_run s
  = match last s with
    | Some c => is_whitespace c
    | None => in_run
    end.
Proof.
  revert in_run. induction s as [|c s IH]; intros in_run; [done|].
  cbn [run_open foldl]. fold (run_open (is_whitespace c) s). rewrite IH.
  destruct s as [|c' s']; [done|]. rewrite last_cons_cons.
  destruct (last (c' :: s')) eqn:Hl; [done|]. by apply last_None in Hl.
Qed.

(** C10: every run of whitespace characters, of whatever kind and
    length, becomes one hyphen: the run [w] between a part that does
    not end with whitespace and a part that does not start with it
    yields the two sanitized parts joined by a single hyphen, and two
    names that differ only in such a run have the same sanitized form
    and the same key at the same timestamp. *)
Theorem whitespace_runs_collapse now a w1 w2 b :
  w1 <> [] -> w2 <> [] ->
  Forall (fun c => is_whitespace c = true) w1 ->
  Forall (fun c => is_whitespace c = true) w2 ->
  sanitize (a ++ w1 ++ b) = sanitize (a ++ w2 ++ b)
  /\ derive_key now (a ++ w1 ++ b) = derive_key now (a ++ w2 ++ b)
  /\ (match last a with Some c => is_whitespace c = false | None => True end ->
      match b with c :: _ => is_whitespace c = false | [] => True end ->
      sanitize (a ++ w1 ++ b) = sanitize a ++ [hyphen] ++ sanitize b).
Proof.
  intros Hne1 Hne2 Hw1 Hw2.
  assert (Hrun : forall w, w <> [] -> Forall (fun c => is_whitespace c = true) w ->
            sanitize (a ++ w ++ b)
            = sanitize a ++ (if run_open false a then [] else [hyphen])
              ++ replace_ws_runs true b).
  { intros w Hne Hw. unfold sanitize. rewrite !replace_ws_runs_app.
    by destruct (replace_ws_runs_whitespace (run_open false a) w Hne Hw)
      as [-> ->]. }
  assert (Heq : sanitize (a ++ w1 ++ b) = sanitize (a ++ w2 ++ b)).
  { by rewrite !Hrun. }
  split; [done|]. split.
  - unfold derive_key. by rewrite Heq.
  - intros Ha Hb. rewrite Hrun by done.
    rewrite (replace_ws_runs_fresh_start true b Hb).
    rewrite run_open_last. destruct (last a) as [c|]; [by rewrite Ha|done].
Qed.

(** ** Listing *)

Section Listing.

Local Abbreviation older a b :=
  (lexico (Image.created_at a) (Image.created_at b)).

Lemma select_Permutation rows :
  select_images_order_by_created_at_desc rows ≡ₚ rows.
Proof. apply merge_sort_Permutation. Qed.

Lemma select_StronglySorted rows :
  StronglySorted created_at_desc (select_images_order_by_created_at_desc rows).
Proof. apply (StronglySorted_merge_sort created_at_desc). Qed.

Lemma StronglySorted_reverse {A} (R : relation A) l :
  StronglySorted R l -> StronglySorted (flip R) (reverse l).
Proof.
  induction 1 as [|x l Hl IH Hx]; [constructor|].
  rewrite reverse_cons. apply StronglySorted_app_2; [|done|constructor; constructor].
  intros x1 x2 Hx1 Hx2. apply list_elem_of_singleton in Hx2 as ->.
  rewrite elem_of_reverse in Hx1. rewrite Forall_forall in Hx. unfold flip. by apply Hx.
Qed.

Lemma StronglySorted_weaken {A} (R1 R2 : relation A) l :
  (forall a b, R1 a b -> R2 a b) ->
  StronglySorted R1 l -> StronglySorted R2 l.
Proof.
  intros Hsub. induction 1 as [|x l Hl IH Hx]; constructor; [done|].
  eapply Forall_impl; [exact Hx|]. intros y. apply Hsub.
Qed.

(** Rows with strictly increasing [created_at] are told apart by it. *)
Lemma increasing_created_at_inj rows a b :
  StronglySorted (fun a b => older a b) rows ->
  a ∈ rows -> b ∈ rows ->
  Image.created_at a = Image.created_at b -> a = b.
Proof.
  induction 1 as [|x l Hl IH Hx]; intros Ha Hb Heq; [by apply elem_of_nil in Ha|].
  rewrite Forall_forall in Hx.
  apply elem_of_cons in Ha as [-> | Ha], Hb as [-> | Hb]; [done|..|by apply IH].
  - specialize (Hx b Hb). rewrite Heq in Hx.
    by apply (irreflexivity lexico) in Hx.
  - specialize (Hx a Ha). rewrite Heq in Hx.
    by apply (irreflexivity lexico) in Hx.
Qed.

Lemma select_increasing rows :
  StronglySorted (fun a b => older a b) rows ->
  select_images_order_by_created_at_desc rows = reverse rows.
Proof.
  intros Hinc.
  apply (StronglySorted_unique_strong created_at_desc).
  - intros x1 x2 Hx1 Hx2 H12 H21.
    rewrite select_Permutation in Hx1. rewrite elem_of_reverse in Hx2.
    apply (increasing_created_at_inj rows); [done..|].
    by apply (anti_symm text_le).
  - apply select_StronglySorted.
  - apply StronglySorted_reverse in Hinc.
    eapply StronglySorted_weaken; [|exact Hinc].
    intros a b Hab. by right.
  - by rewrite select_Permutation, reverse_Permutation.
Qed.

Lemma loader_reads E s :
  DB_select E = None ->
  loader E s
  = (Ok {| loader_status := StatusSuccess;
           images := select_images_order_by_created_at_desc (DB s);
           message := None |},
     {| R2 := R2 s; DB := DB s; calls := calls s ++ [CallSelect];
        console := console s; key := key s |}).
Proof. intros Hsel. run. by follow Hsel. Qed.

End Listing.

(** C8: when the read succeeds, [loader] answers with all the rows of
    the table, each once, ordered by [created_at] from newest to
    oldest; for rows inserted with strictly increasing [created_at]
    that is the reverse of the insertion order, strictly descending. *)
Theorem loader_lists_newest_first E s :
  DB_select E = None ->
  exists imgs,
    (loader E s).1 = Ok {| loader_status := StatusSuccess; images := imgs;
                           message := None |}
    /\ imgs ≡ₚ DB s
    /\ StronglySorted
         (fun a b => text_le (Image.created_at b) (Image.created_at a)) imgs
    /\ (StronglySorted
          (fun a b => lexico (Image.created_at a) (Image.created_at b)) (DB s) ->
        imgs = reverse (DB s)
        /\ StronglySorted
             (fun a b => lexico (Image.created_at b) (Image.created_at a)) imgs).
Proof.
  intros Hsel. rewrite (loader_reads E s Hsel).
  eexists. split; [done|]. split; [apply select_Permutation|].
  split; [apply select_StronglySorted|].
  intros Hinc. rewrite (select_increasing _ Hinc). split; [done|].
  by apply StronglySorted_reverse in Hinc.
Qed.

(** C9: when the read fails, [loader] does not throw: it answers with
    status ["error"], an empty list of images and a message, the
    message of the error or ["Failed to load images"]; and [loader]
    answers in every case. *)
Theorem loader_degrades_on_read_failure E s e :
  DB_select E = Some e ->
  (loader E s).1
  = Ok {| loader_status := StatusError;
          images := [];
          message := Some (message_or (js "Failed to load images") e) |}
  /\ DB (loader E s).2 = DB s
  /\ (forall E' s', exists d, (loader E' s').1 = Ok d).
Proof.
  intros Hsel. split; [|split].
  - run. by follow Hsel.
  - run. by follow Hsel.
  - intros E' s'. run. split_answers; by eexists.
Qed.

(** * The properties at the fixtures *)

Section AtFixtures.

Import Fixture.

Local Abbreviation cat_key := (derive_key 1700000000000 (js "cat.png")).
Local Abbreviation cat_url := (public_url (js "https://pub.example") cat_key).
Local Abbreviation cat_form := [(js "image", EntryFile cat)].

(** C2 as stated fails: the put fails and [delete] is called. *)
Lemma put_failure_never_deletes_counterexample :
  R2_put env_put_fails cat_key cat = Some boom
  /\ ~ delete_never_invoked empty_state
         (action env_put_fails (upload cat) empty_state).2.
Proof.
  split; [reflexivity|].
  unfold delete_never_invoked. intros H.
  assert (Hin : CallDelete cat_key
                ∈ new_calls empty_state
                    (action env_put_fails (upload cat) empty_state).2).
  { vm_compute. constructor. constructor. }
  rewrite Forall_forall in H. specialize (H _ Hin). discriminate H.
Qed.

Lemma put_failure_still_deletes_witness :
  let r := action env_put_fails (upload cat) empty_state in
  r.1 = Ok (error_response boom)
  /\ calls r.2 = calls empty_state ++ [CallPut cat_key cat; CallDelete cat_key]
  /\ R2 r.2 = after_delete env_put_fails cat_key (R2 empty_state)
  /\ DB r.2 = DB empty_state.
Proof.
  apply (put_failure_still_deletes env_put_fails (upload cat) cat_form cat
           empty_state boom); reflexivity.
Defined.

(** C3 as stated fails: a file without a name and a file without
    content are both uploaded and recorded. *)
Lemma empty_input_rejected_counterexample :
  let r1 := action env_ok (upload unnamed) empty_state in
  let r2 := action env_ok (upload zero_bytes) empty_state in
  (File.name unnamed = []
   /\ ~ rejected_without_side_effect env_ok (upload unnamed) empty_state
   /\ r1.1 = Ok {| data := ActionSuccess; status := 200 |}
   /\ key r1.2 = Some (js "images/1700000000000-")
   /\ R2 r1.2 !! js "images/1700000000000-"
      = Some {| body := File.bytes unnamed; contentType := js "image/png" |}
   /\ length (DB r1.2) = 1%nat)
  /\ (File.bytes zero_bytes = []
      /\ ~ rejected_without_side_effect env_ok (upload zero_bytes) empty_state
      /\ r2.1 = Ok {| data := ActionSuccess; status := 200 |}
      /\ key r2.2 = Some cat_key
      /\ R2 r2.2 !! cat_key = Some {| body := []; contentType := js "image/png" |}
      /\ length (DB r2.2) = 1%nat).
Proof.
  split.
  - split; [reflexivity|]. split.
    + intros (_ & Hkey & _). vm_compute in Hkey. discriminate Hkey.
    + split; [reflexivity|]. split; [reflexivity|]. split; [|reflexivity].
      vm_compute. reflexivity.
  - split; [reflexivity|]. split.
    + intros (_ & Hkey & _). vm_compute in Hkey. discriminate Hkey.
    + split; [reflexivity|]. split; [reflexivity|]. split; [|reflexivity].
      vm_compute. reflexivity.
Qed.

Lemma missing_file_rejected_witness :
  rejected_without_side_effect env_ok empty_form empty_state.
Proof.
  apply (missing_file_rejected env_ok empty_form [] empty_state);
    [reflexivity | intros f Hf; discriminate Hf].
Defined.

Local Abbreviation png := [137%N; 80%N; 78%N; 71%N].

Lemma failed_description_is_replaced_witness :
  let r := action env_ai_fails (upload cat) empty_state in
  sentinel = js "Description unavailable"
  /\ (exists post,
        calls r.2 = calls empty_state
                    ++ [CallPut cat_key cat; CallFetch cat_url; CallAi png;
                        CallInsert cat_url (js "cat.png") (Some sentinel)] ++ post)
  /\ (DB_insert env_ai_fails cat_url (js "cat.png") (Some sentinel) = RunResult true ->
      r.1 = Ok {| data := ActionSuccess; status := 200 |}
      /\ calls r.2 = calls empty_state
                     ++ [CallPut cat_key cat; CallFetch cat_url; CallAi png;
                         CallInsert cat_url (js "cat.png") (Some sentinel)]
      /\ R2 r.2 = <[cat_key:={| body := File.bytes cat;
                                contentType := File.type cat |}]> (R2 empty_state)
      /\ DB r.2 = DB empty_state
                  ++ [Image.mk (next_id (DB empty_state)) cat_url (js "cat.png")
                        (Some sentinel) (CURRENT_TIMESTAMP env_ai_fails)]).
Proof.
  apply (failed_description_is_replaced env_ai_fails (upload cat) cat_form cat
           empty_state png); [reflexivity | reflexivity | reflexivity | |].
  - exists (js "OK"). reflexivity.
  - left. exists boom. reflexivity.
Defined.

Lemma soft_insert_failure_is_hard_witness :
  let r := action env_insert_soft (upload cat) empty_state in
  let d := description_of (AI_run env_insert_soft png) in
  r.1 = Ok (error_response not_saved)
  /\ new_calls empty_state r.2
     = [CallPut cat_key cat; CallFetch cat_url; CallAi png;
        CallInsert cat_url (js "cat.png") d; CallDelete cat_key]
  /\ filter (fun c => is_delete c = true) (new_calls empty_state r.2)
     = [CallDelete cat_key]
  /\ DB r.2 = DB empty_state
  /\ r = action (with_DB_insert env_insert_soft (fun _ _ _ => RunRejects not_saved))
           (upload cat) empty_state.
Proof.
  apply (soft_insert_failure_is_hard env_insert_soft (upload cat) cat_form cat
           empty_state png); [reflexivity | reflexivity | reflexivity | | reflexivity].
  exists (js "OK"). reflexivity.
Defined.

Lemma whitespace_runs_collapse_witness :
  let a := js "my" in
  let w1 := [32%N] in
  let w2 := [9%N; 32%N; 160%N; 10%N] in
  let b := js "cat.png" in
  sanitize (a ++ w1 ++ b) = sanitize (a ++ w2 ++ b)
  /\ derive_key 1700000000000 (a ++ w1 ++ b)
     = derive_key 1700000000000 (a ++ w2 ++ b)
  /\ (match last a with Some c => is_whitespace c = false | None => True end ->
      match b with c :: _ => is_whitespace c = false | [] => True end ->
      sanitize (a ++ w1 ++ b) = sanitize a ++ [hyphen] ++ sanitize b).
Proof.
  apply (whitespace_runs_collapse 1700000000000 (js "my") [32%N]
           [9%N; 32%N; 160%N; 10%N] (js "cat.png"));
    [discriminate | discriminate | | ];
    repeat constructor.
Defined.

Lemma loader_lists_newest_first_witness :
  exists imgs,
    (loader env_ok three_rows).1
    = Ok {| loader_status := StatusSuccess; images := imgs; message := None |}
    /\ imgs ≡ₚ DB three_rows
    /\ StronglySorted
         (fun a b => text_le (Image.created_at b) (Image.created_at a)) imgs
    /\ (StronglySorted
          (fun a b => lexico (Image.created_at a) (Image.created_at b))
          (DB three_rows) ->
        imgs = reverse (DB three_rows)
        /\ StronglySorted
             (fun a b => lexico (Image.created_at b) (Image.created_at a)) imgs).
Proof.
  apply (loader_lists_newest_first env_ok three_rows). reflexivity.
Defined.

Lemma loader_degrades_on_read_failure_witness :
  (loader env_select_fails three_rows).1
  = Ok {| loader_status := StatusError;
          images := [];
          message := Some (js "boom") |}
  /\ DB (loader env_select_fails three_rows).2 = DB three_rows
  /\ (forall E' s', exists d, (loader E' s').1 = Ok d).
Proof.
  apply (loader_degrades_on_read_failure env_select_fails three_rows boom).
  reflexivity.
Defined.

(** The rows of the fixture are in increasing order of [created_at],
    and the listing gives them newest first. *)
Example loader_three_rows :
  StronglySorted (fun a b => lexico (Image.created_at a) (Image.created_at b))
    (DB three_rows)
  /\ Image.id <$> select_images_order_by_created_at_desc (DB three_rows)
     = [3; 2; 1].
Proof.
  split; [|vm_compute; reflexivity].
  apply (bool_decide_unpack _). vm_compute. exact I.
Qed.

Example derive_key_cat :
  derive_key 1700000000000 (js "my  cat" ++ [9%N; 10%N] ++ js "pic 1.png")
  = js "images/1700000000000-my-cat-pic-1.png".
Proof. vm_compute. reflexivity. Qed.

Example sanitize_tabs_and_spaces :
  sanitize (js "my  cat" ++ [9%N; 10%N] ++ js "pic 1.png") = js "my-cat-pic-1.png".
Proof. vm_compute. reflexivity. Qed.

End AtFixtures.

(** * Further properties of the route *)

(** ** The outcomes of [action] *)

Lemma action_outcome E rq s : outcome E rq s.
Proof.
  destruct (formData rq) as [e | fd] eqn:Hform.
  { apply (unreadable_form E rq s e Hform); run; by follow Hform. }
  destruct (FormData_get fd (js "image")) as [[file | str] |] eqn:Hget.
  - destruct (R2_put E (derive_key (Date_now E) (File.name file)) file)
      as [e |] eqn:Hput.
    { destruct (action_put_fails E rq fd file s Hform Hget e Hput)
        as (H1 & H2 & H3 & H4 & _).
      by eapply put_failed. }
    assert (Hlate : forall e,
              late_failure E
                (public_url (R2_PUBLIC_URL E)
                   (derive_key (Date_now E) (File.name file)))
                (File.name file) e -> outcome E rq s).
    { intros e Hlate.
      destruct (action_late_failure E rq fd file s Hform Hget e Hput Hlate)
        as (H1 & (mid & H2 & Hmid) & H3 & H4).
      by eapply failed_late. }
    destruct (fetch E (public_url (R2_PUBLIC_URL E)
                         (derive_key (Date_now E) (File.name file))))
      as [e | [|] st [e | b]] eqn:Hfetch.
    + eapply Hlate, fails_at_readback, fetch_rejects; done.
    + eapply Hlate, fails_at_readback, buffer_rejects; done.
    + assert (Hrb : readback_gives E
                (public_url (R2_PUBLIC_URL E)
                   (derive_key (Date_now E) (File.name file))) b)
        by (by exists st).
      destruct (DB_insert E
                  (public_url (R2_PUBLIC_URL E)
                     (derive_key (Date_now E) (File.name file)))
                  (File.name file) (description_of (AI_run E b)))
        as [e | [|]] eqn:Hins.
      * eapply Hlate, fails_at_insert; [done|]. by apply insert_rejects.
      * destruct (action_succeeds E rq fd file s Hform Hget b Hput Hrb Hins)
          as (H1 & H2 & H3 & H4 & _).
        by eapply committed.
      * eapply Hlate, fails_at_insert; [done|]. by apply insert_unsuccessful.
    + eapply Hlate, fails_at_readback, fetch_not_ok; done.
    + eapply Hlate, fails_at_readback, fetch_not_ok; done.
  - eapply (no_file E rq s fd); [done | intros f; by rewrite Hget | ..]; run;
      follow Hform; by follow Hget.
  - eapply (no_file E rq s fd); [done | intros f; by rewrite Hget | ..]; run;
      follow Hform; by follow Hget.
Qed.

Section Outcomes.

Context (E : env) (rq : Request) (s : state).

Local Abbreviation r := (action E rq s).

(** X1: every run of [action] answers with a response, never with a
    throw; [isErrorResponse] holds of its data exactly when its status
    is 500, otherwise the status is 200; an error answer leaves the
    table as it was and a success answer adds exactly one row. *)
Theorem response_tells_what_happened :
  exists resp,
    r.1 = Ok resp
    /\ (isErrorResponse (data resp) = true <-> status resp = 500)
    /\ (isErrorResponse (data resp) = false <-> status resp = 200)
    /\ (isErrorResponse (data resp) = true -> DB r.2 = DB s)
    /\ (isErrorResponse (data resp) = false ->
        exists row, DB r.2 = DB s ++ [row]).
Proof.
  destruct (action_outcome E rq s)
    as [e _ H1 _ _ H4 | fd e _ _ H1 _ _ H4 | fd file e _ _ k _ H1 _ _ H4
        | fd file e mid _ _ k u _ _ H1 _ _ _ H4
        | fd file b _ _ k u d _ _ _ H1 _ _ H4];
    eexists; (split; [exact H1|]); cbn; repeat split; try done.
  by eexists.
Qed.

(** X2: [action] answers success only when the form held a file, the
    put succeeded, the read-back gave bytes and the insert reported
    success; then exactly these four calls were made and no delete,
    the blob is in the bucket under the key, and the table has one
    more row with the public URL, the original file name and the
    description obtained from the bytes that were read back. *)
Theorem success_means_committed :
  r.1 = Ok {| data := ActionSuccess; status := 200 |} ->
  exists fd file b,
    formData rq = inr fd
    /\ FormData_get fd (js "image") = Some (EntryFile file)
    /\ let k := derive_key (Date_now E) (File.name file) in
       let u := public_url (R2_PUBLIC_URL E) k in
       let d := description_of (AI_run E b) in
       R2_put E k file = None
       /\ readback_gives E u b
       /\ DB_insert E u (File.name file) d = RunResult true
       /\ new_calls s r.2 = [CallPut k file; CallFetch u; CallAi b;
                             CallInsert u (File.name file) d]
       /\ R2 r.2 !! k = Some {| body := File.bytes file;
                                contentType := File.type file |}
       /\ DB r.2 = DB s ++ [Image.mk (next_id (DB s)) u (File.name file) d
                              (CURRENT_TIMESTAMP E)].
Proof.
  intros Hok.
  destruct (action_outcome E rq s)
    as [e _ H1 _ _ _ | fd e _ _ H1 _ _ _ | fd file e _ _ k _ H1 _ _ _
        | fd file e mid _ _ k u _ _ H1 _ _ _ _
        | fd file b Hform Hfile k u d Hput Hrb Hins H1 H2 H3 H4];
    try (rewrite H1 in Hok; discriminate Hok).
  exists fd, file, b. split; [done|]. split; [done|]. cbn zeta.
  split; [done|]. split; [done|]. split; [done|].
  split; [unfold new_calls; by rewrite H2, drop_app_length|].
  split; [by rewrite H3, lookup_insert_eq|done].
Qed.


(** X4: [action] touches no object of the bucket but the one under the
    key of its own upload: every other key holds after the run what it
    held before, and without a file in the form the bucket is as it
    was. *)
Theorem other_objects_untouched k' :
  (forall fd file,
     formData rq = inr fd ->
     FormData_get fd (js "image") = Some (EntryFile file) ->
     k' <> derive_key (Date_now E) (File.name file)) ->
  R2 r.2 !! k' = R2 s !! k'.
Proof.
  intros Hother.
  destruct (action_outcome E rq s)
    as [e _ _ _ H3 _ | fd e _ _ _ _ H3 _
        | fd file e Hform Hfile k _ _ _ H3 _
        | fd file e mid Hform Hfile k u _ _ _ _ _ H3 _
        | fd file b Hform Hfile k u d _ _ _ _ _ H3 _];
    rewrite H3; try done;
    specialize (Hother fd file Hform Hfile);
    unfold after_delete; try destruct (R2_delete E k);
    rewrite ?lookup_delete_ne, ?lookup_insert_ne by done; done.
Qed.

End Outcomes.

(** ** Records and their blobs *)

Section Consistency.

Context (E : env) (rq : Request) (s : state).

Local Abbreviation r := (action E rq s).
Local Abbreviation base := (R2_PUBLIC_URL E).

Lemma public_url_inj b k1 k2 : public_url b k1 = public_url b k2 -> k1 = k2.
Proof. unfold public_url. intros H. by apply app_inv_head, app_inv_head in H. Qed.

(** X5: when the key of the upload is not in use in the bucket,
    [action] keeps every record with its blob: if each row of the table
    had its object before the run, each row has it after the run,
    whatever the collaborators answered. *)
Theorem no_orphans_preserved :
  (forall fd file,
     formData rq = inr fd ->
     FormData_get fd (js "image") = Some (EntryFile file) ->
     R2 s !! derive_key (Date_now E) (File.name file) = None) ->
  no_orphans base s -> no_orphans base r.2.
Proof.
  intros Hfresh Hinv row.
  destruct (action_outcome E rq s)
    as [e _ _ _ H3 H4 | fd e _ _ _ _ H3 H4
        | fd file e Hform Hfile k _ _ _ H3 H4
        | fd file e mid Hform Hfile k u _ _ _ _ _ H3 H4
        | fd file b Hform Hfile k u d _ _ _ _ _ H3 H4];
    rewrite H3, H4; try (by apply Hinv);
    specialize (Hfresh fd file Hform Hfile).
  - intros Hrow. unfold after_delete. destruct (R2_delete E k); [by apply Hinv|].
    rewrite delete_id by done. by apply Hinv.
  - intros Hrow. destruct (Hinv row Hrow) as (k2 & Hurl & Hblob).
    exists k2. split; [done|].
    unfold after_delete. destruct (R2_delete E k).
    + rewrite lookup_insert_ne; [done|]. intros Hk.
      rewrite <- Hk in Hblob. unfold k in Hblob.
      rewrite Hfresh in Hblob. by destruct Hblob.
    + rewrite delete_insert_eq, delete_id by done. done.
  - intros Hrow. apply elem_of_app in Hrow as [Hrow | Hrow].
    + destruct (Hinv row Hrow) as (k2 & Hurl & Hblob).
      exists k2. split; [done|].
      rewrite lookup_insert_ne; [done|]. intros Hk.
      rewrite <- Hk in Hblob. unfold k in Hblob.
      rewrite Hfresh in Hblob. by destruct Hblob.
    + apply list_elem_of_singleton in Hrow as ->.
      exists k. split; [done|]. rewrite lookup_insert_eq. by eexists.
Qed.

(** X6: the condition on the key is needed. When a record already
    points at the key of the upload, the put succeeds, a later step
    fails and the delete succeeds, that record has lost its blob after
    the run. *)
Theorem rollback_on_taken_key_orphans fd file e row :
  formData rq = inr fd ->
  FormData_get fd (js "image") = Some (EntryFile file) ->
  let k := derive_key (Date_now E) (File.name file) in
  R2_put E k file = None ->
  late_failure E (public_url base k) (File.name file) e ->
  R2_delete E k = None ->
  row ∈ DB s ->
  Image.url row = public_url base k ->
  row ∈ DB r.2 /\ R2 r.2 !! k = None /\ ~ no_orphans base r.2.
Proof.
  intros Hform Hfile k Hput Hlate Hdel Hrow Hurl.
  destruct (action_late_failure E rq fd file s Hform Hfile e Hput Hlate)
    as (_ & _ & H3 & H4).
  assert (Hgone : R2 r.2 !! k = None).
  { rewrite H3. by apply after_delete_lookup. }
  assert (Hin : row ∈ DB r.2) by (by rewrite H4).
  split; [done|]. split; [done|].
  intros Hinv. destruct (Hinv row Hin) as (k2 & Hurl2 & Hblob).
  rewrite Hurl in Hurl2. apply public_url_inj in Hurl2 as <-.
  rewrite Hgone in Hblob. by destruct Hblob.
Qed.

End Consistency.

(** ** Listing after an upload *)

Lemma newest_row_first rows row imgs :
  imgs ≡ₚ rows ++ [row] ->
  StronglySorted created_at_desc imgs ->
  Forall (fun old => lexico (Image.created_at old) (Image.created_at row)) rows ->
  head imgs = Some row.
Proof.
  intros Hperm Hsorted Holder.
  destruct imgs as [|x rest].
  { apply Permutation_nil in Hperm. by destruct rows. }
  cbn. f_equal.
  assert (Hx : x ∈ rows ++ [row]) by (rewrite <- Hperm; by left).
  apply elem_of_app in Hx as [Hx | Hx]; [|by apply list_elem_of_singleton in Hx].
  exfalso.
  rewrite Forall_forall in Holder. specialize (Holder x Hx).
  assert (Hrow : row ∈ x :: rest) by (rewrite Hperm; set_solver).
  apply elem_of_cons in Hrow as [-> | Hrow].
  { by apply (irreflexivity lexico) in Holder. }
  apply StronglySorted_cons in Hsorted as [Hhd _].
  rewrite Forall_forall in Hhd. specialize (Hhd row Hrow).
  destruct Hhd as [Heq | Hlt].
  - rewrite Heq in Holder. by apply (irreflexivity lexico) in Holder.
  - apply (irreflexivity lexico (Image.created_at x)). by etrans.
Qed.

(** X8: after [action] answered success, a [loader] whose read
    succeeds lists the new record among all the others: it carries the
    original file name, the public URL of the key, the description that
    reached the insert and the timestamp of the insert; and when every
    earlier record is older than that timestamp the new record comes
    first. *)
Theorem uploaded_image_is_listed E E' rq s :
  (action E rq s).1 = Ok {| data := ActionSuccess; status := 200 |} ->
  DB_select E' = None ->
  exists fd file b row imgs,
    formData rq = inr fd
    /\ FormData_get fd (js "image") = Some (EntryFile file)
    /\ (loader E' (action E rq s).2).1
       = Ok {| loader_status := StatusSuccess; images := imgs; message := None |}
    /\ row ∈ imgs
    /\ imgs ≡ₚ DB s ++ [row]
    /\ Image.name row = File.name file
    /\ Image.url row
       = public_url (R2_PUBLIC_URL E) (derive_key (Date_now E) (File.name file))
    /\ Image.description row = description_of (AI_run E b)
    /\ Image.created_at row = CURRENT_TIMESTAMP E
    /\ (Forall (fun old => lexico (Image.created_at old) (CURRENT_TIMESTAMP E))
          (DB s) ->
        head imgs = Some row).
Proof.
  intros Hok Hsel.
  destruct (action_outcome E rq s)
    as [e _ H1 _ _ _ | fd e _ _ H1 _ _ _ | fd file e _ _ k _ H1 _ _ _
        | fd file e mid _ _ k u _ _ H1 _ _ _ _
        | fd file b Hform Hfile k u d Hput Hrb Hins H1 H2 H3 H4];
    try (rewrite H1 in Hok; discriminate Hok).
  rewrite (loader_reads E' _ Hsel). cbn [fst].
  exists fd, file, b,
    (Image.mk (next_id (DB s)) u (File.name file) d (CURRENT_TIMESTAMP E)).
  eexists. split; [done|]. split; [done|]. split; [done|].
  assert (Hperm : select_images_order_by_created_at_desc (DB (action E rq s).2)
                  ≡ₚ DB s ++ [Image.mk (next_id (DB s)) u (File.name file) d
                                 (CURRENT_TIMESTAMP E)]).
  { by rewrite select_Permutation, H4. }
  split; [rewrite Hperm; set_solver|].
  split; [done|]. split; [done|]. split; [done|]. split; [done|]. split; [done|].
  intros Holder. eapply newest_row_first; [exact Hperm | apply select_StronglySorted | done].
Qed.

(** X9: [loader] only reads: it makes the one select call, leaves the
    bucket and the table as they are, and a second [loader] right after
    it gives the same answer. *)
Theorem loader_only_reads E s :
  let l := loader E s in
  new_calls s l.2 = [CallSelect]
  /\ R2 l.2 = R2 s
  /\ DB l.2 = DB s
  /\ (loader E l.2).1 = l.1.
Proof.
  run. destruct (DB_select E) as [e |] eqn:Hsel; cbn;
    unfold new_calls; cbn; by rewrite drop_app_length.
Qed.

(** ** More on sanitizing and keys *)

Lemma replace_ws_runs_length in_run s :
  (length (replace_ws_runs in_run s) <= length s)%nat.
Proof.
  revert in_run. induction s as [|c s IH]; intros in_run; [done|].
  pose proof (IH true). pose proof (IH false).
  cbn [replace_ws_runs]. destruct (is_whitespace c), in_run; cbn; lia.
Qed.

(** X10: sanitizing a name twice is sanitizing it once, it never makes
    a name longer, and exactly the names without whitespace are left
    as they are. *)
Theorem sanitize_idempotent name :
  sanitize (sanitize name) = sanitize name
  /\ (length (sanitize name) <= length name)%nat
  /\ (sanitize name = name <-> Forall (fun c => is_whitespace c = false) name).
Proof.
  split; [|split; [|split]].
  - apply sanitize_without_whitespace, replace_ws_runs_no_whitespace.
  - apply replace_ws_runs_length.
  - intros <-. apply replace_ws_runs_no_whitespace.
  - apply sanitize_without_whitespace.
Qed.

Lemma pretty_N_char_digit x : is_digit (N_of_ascii (pretty_N_char x)) = true.
Proof. unfold pretty_N_char. by repeat case_match. Qed.

Lemma js_String a str : js (String a str) = N_of_ascii a :: js str.
Proof. done. Qed.

Lemma pretty_N_go_digits x str :
  exists d,
    js (pretty_N_go x str) = d ++ js str
    /\ Forall (fun c => is_digit c = true) d
    /\ ((0 < x)%N -> d <> []).
Proof.
  revert str. induction (N.lt_wf_0 x) as [x _ IH]; intros str.
  assert (x = 0 \/ 0 < x)%N as [-> | Hpos] by lia.
  { exists []. rewrite pretty_N_go_0. split; [done|]. split; [done|]. lia. }
  rewrite pretty_N_go_step by done.
  destruct (IH (x `div` 10)%N) with (str := String (pretty_N_char (x `mod` 10)) str)
    as (d & Hd & Hdig & _).
  { by apply N.div_lt. }
  exists (d ++ [N_of_ascii (pretty_N_char (x `mod` 10))]).
  split; [by rewrite Hd, js_String, <- app_assoc|]. split.
  - apply Forall_app. split; [done|]. constructor; [|done].
    apply pretty_N_char_digit.
  - intros _. by destruct d.
Qed.

(** The decimal form of a number: a sign for the negative ones, then
    at least one digit. *)
Lemma number_to_string_digits t :
  exists d,
    number_to_string t = (if decide (t < 0) then [hyphen] else []) ++ d
    /\ Forall (fun c => is_digit c = true) d
    /\ d <> [].
Proof.
  unfold number_to_string. destruct t as [|p|p].
  - exists (js "0"). split; [done|]. split; [by repeat constructor|done].
  - destruct (pretty_N_go_digits (Npos p) "") as (d & Hd & Hdig & Hne).
    exists d. cbn. unfold pretty, pretty_Z, pretty, pretty_positive, pretty, pretty_N.
    rewrite decide_False by done. rewrite Hd.
    split; [by rewrite app_nil_r|]. split; [done|]. apply Hne. lia.
  - destruct (pretty_N_go_digits (Npos p) "") as (d & Hd & Hdig & Hne).
    exists d. cbn. unfold pretty, pretty_Z, pretty, pretty_positive, pretty, pretty_N.
    rewrite decide_False by done.
    change (js ("-" +:+ pretty_N_go (N.pos p) "")) with (hyphen :: js (pretty_N_go (N.pos p) "")).
    rewrite Hd. split; [by rewrite app_nil_r|]. split; [done|]. apply Hne. lia.
Qed.

Lemma digits_then_hyphen d1 d2 x1 x2 :
  Forall (fun c => is_digit c = true) d1 ->
  Forall (fun c => is_digit c = true) d2 ->
  d1 ++ hyphen :: x1 = d2 ++ hyphen :: x2 ->
  d1 = d2 /\ x1 = x2.
Proof.
  intros H1. revert d2. induction H1 as [|c d1 Hc _ IH]; intros d2 H2 Heq.
  - destruct H2 as [|c' d2 Hc' _]; cbn in Heq; by simplify_eq.
  - destruct H2 as [|c' d2 Hc' H2]; cbn in Heq; simplify_eq.
    destruct (IH d2 H2) as [-> ->]; done.
Qed.

(** X11: two uploads get the same key exactly when their timestamps
    are equal and their file names are equal after sanitizing; the
    same holds of their public URLs under one base. *)
Theorem keys_collide_iff base t1 t2 name1 name2 :
  (derive_key t1 name1 = derive_key t2 name2
   <-> t1 = t2 /\ sanitize name1 = sanitize name2)
  /\ (public_url base (derive_key t1 name1) = public_url base (derive_key t2 name2)
      <-> t1 = t2 /\ sanitize name1 = sanitize name2).
Proof.
  assert (Hkey : derive_key t1 name1 = derive_key t2 name2
                 <-> t1 = t2 /\ sanitize name1 = sanitize name2).
  { split; [|by intros [-> Hs]; unfold derive_key; rewrite Hs].
    unfold derive_key. intros Heq. apply app_inv_head in Heq.
    destruct (number_to_string_digits t1) as (d1 & Hd1 & Hdig1 & Hne1).
    destruct (number_to_string_digits t2) as (d2 & Hd2 & Hdig2 & Hne2).
    rewrite Hd1, Hd2 in Heq. rewrite <- !app_assoc in Heq.
    change (js "-") with [hyphen] in Heq. cbn [app] in Heq.
    assert (Hsame : d1 = d2 /\ sanitize name1 = sanitize name2
                    /\ (t1 < 0 <-> t2 < 0)).
    { destruct (decide (t1 < 0)), (decide (t2 < 0)); cbn in Heq.
      - simplify_eq. destruct (digits_then_hyphen _ _ _ _ Hdig1 Hdig2 Heq). tauto.
      - destruct Hdig2 as [|c d2 Hc _]; [done|]. cbn [app] in Heq.
        injection Heq as Hc' _. subst c. by cbv in Hc.
      - destruct Hdig1 as [|c d1 Hc _]; [done|]. cbn [app] in Heq.
        injection Heq as Hc' _. subst c. by cbv in Hc.
      - destruct (digits_then_hyphen _ _ _ _ Hdig1 Hdig2 Heq). tauto. }
    destruct Hsame as (-> & Hs & Hsign). split; [|done].
    apply number_to_string_inj. rewrite Hd1, Hd2.
    destruct (decide (t1 < 0)), (decide (t2 < 0)); tauto. }
  split; [done|]. rewrite <- Hkey. split; [|by intros ->].
  unfold public_url. intros H. by apply app_inv_head, app_inv_head in H.
Qed.

(** ** The page *)

Section PageProperties.

Import Page.

Lemma replaced_preview (u v : list N) :
  v <> u -> (({[u]} ∪ {[v]}) ∖ {[v]} : gset (list N)) = {[u]}.
Proof.
  intros Hv. apply set_eq. intros x.
  rewrite elem_of_difference, elem_of_union, !elem_of_singleton.
  split; [tauto|]. intros ->. split; [by left|congruence].
Qed.

Lemma step_tidy p ev : url_given ev = true -> tidy p -> tidy (step p ev).
Proof.
  intros Hurl (Hinput & Hurls & Hne).
  destruct p as [drag prev img inp urls]. cbn in Hinput, Hurls, Hne. subst inp urls.
  assert (Hsame : forall q : option (list N), decide (q = q) = left eq_refl).
  { intros q. apply decide_True_pi. }
  destruct prev as [[|c v] |]; [done|..];
    destruct ev as [[|f fs] [|c' url] | [|f fs] [|c' url] | | |];
    try discriminate Hurl;
    unfold tidy, step, commit, handle, handleFileChange, handleDrop,
      chooseFiles, setIsDragging, removeClick; cbn;
    try destruct (startsWith (File.type f) (js "image/")); cbn;
    rewrite ?Hsame; cbn;
    (split; [done|]); (split; [|done]);
    try done;
    try (by apply difference_diag_L);
    try (by apply (right_id_L ∅ (∪)));
    (case_decide as Heq;
     [injection Heq as <- <-; apply union_idemp_L
     |apply replaced_preview; congruence]).
Qed.

(** X12: whatever is chosen, dropped, dragged or removed, in whatever
    order, the page stays tidy: the file input is in the page, and
    holds no file, exactly when nothing is previewed (so a dropped file
    never stays in an input), and every object URL but the one
    previewed has been revoked. *)
Theorem page_stays_tidy evs :
  Forall (fun ev => url_given ev = true) evs ->
  tidy (run evs initial).
Proof.
  unfold run. intros Hevs.
  assert (H : forall p, tidy p -> tidy (foldl step p evs)).
  { induction Hevs as [|ev evs Hev _ IH]; intros p Hp; [done|].
    cbn. by apply IH, step_tidy. }
  apply H. by split.
Qed.

Lemma step_image p ev : chooses ev = false -> image (step p ev) = image p.
Proof.
  destruct ev as [[|f fs] url | files url | | |]; try done; intros _.
  unfold step, commit, handle, handleDrop. cbn.
  destruct (head files) as [file|]; [|done].
  by destruct (startsWith (File.type file) (js "image/")).
Qed.

Lemma run_image p evs :
  Forall (fun ev => chooses ev = false) evs -> image (run evs p) = image p.
Proof.
  unfold run. intros H. revert p.
  induction H as [|ev evs Hev _ IH]; intros p; [done|].
  cbn. by rewrite IH, step_image.
Qed.

Lemma action_without_image E s :
  rejected_without_side_effect E {| formData := inr [] |} s
  /\ (action E {| formData := inr [] |} s).1
     = Ok (error_response
             (JsError (js "Cannot read properties of null (reading 'name')"))).
Proof. unfold rejected_without_side_effect. run. split; [|done]. split; [by eexists|done]. Qed.

(** X13: dropping a file does not select it. As long as no file was
    chosen through the input, whatever was dropped, the cell [image] is
    empty, the submitted form has no field [image], and [action] turns
    the request down without any side effect, answering with the
    message of the error thrown by reading [name] of [null]. *)
Theorem dropped_file_is_not_submitted evs E s :
  Forall (fun ev => chooses ev = false) evs ->
  let p := run evs initial in
  image p = None
  /\ formData (onSubmit p) = inr []
  /\ rejected_without_side_effect E (onSubmit p) s
  /\ (action E (onSubmit p) s).1
     = Ok (error_response
             (JsError (js "Cannot read properties of null (reading 'name')"))).
Proof.
  intros Hevs p.
  assert (Himg : image p = None) by (subst p; by rewrite run_image).
  unfold onSubmit. rewrite Himg.
  split; [done|]. split; [done|]. apply action_without_image.
Qed.

(** X14: a file chosen through the input stays selected until another
    one is chosen: after any drops, drags and clicks on "Remove", the
    submitted form still carries it and [action] puts that file under
    the key derived from its name. *)
Theorem chosen_file_is_submitted before file files url after E s :
  Forall (fun ev => chooses ev = false) after ->
  let p := run (before ++ Change (file :: files) url :: after) initial in
  image p = Some file
  /\ formData (onSubmit p) = inr [(js "image", EntryFile file)]
  /\ key (action E (onSubmit p) s).2
     = Some (derive_key (Date_now E) (File.name file))
  /\ exists post,
       calls (action E (onSubmit p) s).2
       = calls s ++ CallPut (derive_key (Date_now E) (File.name file)) file :: post.
Proof.
  intros Hafter p.
  assert (Himg : image p = Some file).
  { subst p. unfold run. rewrite foldl_app. cbn [foldl].
    fold (run after (step (foldl step initial before) (Change (file :: files) url))).
    by rewrite run_image. }
  assert (Hform : formData (onSubmit p) = inr [(js "image", EntryFile file)]).
  { unfold onSubmit. by rewrite Himg. }
  split; [done|]. split; [done|].
  by apply (action_key E (onSubmit p) [(js "image", EntryFile file)] file s).
Qed.

End PageProperties.

(** * The further properties at the fixtures *)

Section FurtherAtFixtures.

Import Fixture Fixture2.

Local Abbreviation cat_key := (derive_key 1700000000000 (js "cat.png")).
Local Abbreviation cat_form := [(js "image", EntryFile cat)].

Lemma success_means_committed_witness :
  let E := env_ok in
  let r := action E (upload cat) empty_state in
  exists fd file b,
    formData (upload cat) = inr fd
    /\ FormData_get fd (js "image") = Some (EntryFile file)
    /\ let k := derive_key (Date_now E) (File.name file) in
       let u := public_url (R2_PUBLIC_URL E) k in
       let d := description_of (AI_run E b) in
       R2_put E k file = None
       /\ readback_gives E u b
       /\ DB_insert E u (File.name file) d = RunResult true
       /\ new_calls empty_state r.2 = [CallPut k file; CallFetch u; CallAi b;
                                       CallInsert u (File.name file) d]
       /\ R2 r.2 !! k = Some {| body := File.bytes file;
                                contentType := File.type file |}
       /\ DB r.2 = DB empty_state
                   ++ [Image.mk (next_id (DB empty_state)) u (File.name file) d
                         (CURRENT_TIMESTAMP E)].
Proof.
  apply (success_means_committed env_ok (upload cat) empty_state). reflexivity.
Defined.


Lemma other_objects_untouched_witness :
  R2 (action env_fetch_404 (upload dog) taken).2 !! cat_key = R2 taken !! cat_key.
Proof.
  apply (other_objects_untouched env_fetch_404 (upload dog) taken cat_key).
  intros fd file Hfd Hget. injection Hfd as <-.
  vm_compute in Hget. injection Hget as <-. vm_compute. discriminate.
Defined.

Lemma rollback_on_taken_key_orphans_witness :
  let E := env_fetch_404 in
  let r := action E (upload cat) taken in
  let row := Image.mk 1 (public_url (js "https://pub.example") cat_key)
               (js "cat.png") None (js "2024-01-01 09:00:00") in
  no_orphans (R2_PUBLIC_URL E) taken
  /\ row ∈ DB r.2
  /\ R2 r.2 !! cat_key = None
  /\ ~ no_orphans (R2_PUBLIC_URL E) r.2.
Proof.
  split.
  - intros row Hrow. apply list_elem_of_singleton in Hrow as ->.
    exists cat_key. split; [reflexivity|]. unfold taken. cbn [R2].
    rewrite lookup_singleton_eq. by eexists.
  - apply (rollback_on_taken_key_orphans env_fetch_404 (upload cat) taken
             cat_form cat
             (JsError (js "Failed to fetch uploaded image: " ++ js "Not Found")));
      [reflexivity | reflexivity | reflexivity | | reflexivity | | reflexivity].
    + apply fails_at_readback.
      apply (fetch_not_ok _ _ (js "Not Found") (inr [])). reflexivity.
    + apply list_elem_of_singleton. reflexivity.
Defined.

(** The fixture for the last property of the listing holds what the
    property asks for: the rows are older than the insert. *)
Example three_rows_older :
  Forall (fun old => lexico (Image.created_at old) (js "2024-01-02 09:00:01"))
    (DB three_rows).
Proof. apply (bool_decide_unpack _). vm_compute. exact I. Qed.

Lemma uploaded_image_is_listed_witness :
  let E := env_later in
  exists fd file b row imgs,
    formData (upload cat) = inr fd
    /\ FormData_get fd (js "image") = Some (EntryFile file)
    /\ (loader E (action E (upload cat) three_rows).2).1
       = Ok {| loader_status := StatusSuccess; images := imgs; message := None |}
    /\ row ∈ imgs
    /\ imgs ≡ₚ DB three_rows ++ [row]
    /\ Image.name row = File.name file
    /\ Image.url row
       = public_url (R2_PUBLIC_URL E) (derive_key (Date_now E) (File.name file))
    /\ Image.description row = description_of (AI_run E b)
    /\ Image.created_at row = CURRENT_TIMESTAMP E
    /\ Forall (fun old => lexico (Image.created_at old) (CURRENT_TIMESTAMP E))
         (DB three_rows)
    /\ head imgs = Some row.
Proof.
  cbn zeta.
  destruct (uploaded_image_is_listed env_later env_later (upload cat) three_rows
              eq_refl eq_refl)
    as (fd & file & b & row & imgs & H1 & H2 & H3 & H4 & H5 & H6 & H7 & H8 & H9 & H10).
  exists fd, file, b, row, imgs.
  split; [exact H1|]. split; [exact H2|]. split; [exact H3|]. split; [exact H4|].
  split; [exact H5|]. split; [exact H6|]. split; [exact H7|]. split; [exact H8|].
  split; [exact H9|]. split; [exact three_rows_older|].
  exact (H10 three_rows_older).
Defined.

Local Abbreviation blob1 := (js "blob:1").
Local Abbreviation blob2 := (js "blob:2").
Local Abbreviation blob3 := (js "blob:3").

Lemma page_stays_tidy_witness :
  tidy (Page.run [Page.Drop [cat] blob1; Page.Remove; Page.Change [dog] blob2;
                  Page.Drop [cat; notes] blob3]
          Page.initial).
Proof.
  apply (page_stays_tidy [Page.Drop [cat] blob1; Page.Remove;
                          Page.Change [dog] blob2; Page.Drop [cat; notes] blob3]).
  repeat constructor.
Defined.

Lemma dropped_file_is_not_submitted_witness :
  let p := Page.run [Page.DragOver; Page.Drop [cat] blob1; Page.Remove;
                     Page.Drop [dog; notes] blob2] Page.initial in
  Page.previewUrl p = Some blob2
  /\ Page.image p = None
  /\ formData (Page.onSubmit p) = inr []
  /\ rejected_without_side_effect env_ok (Page.onSubmit p) empty_state
  /\ (action env_ok (Page.onSubmit p) empty_state).1
     = Ok (error_response
             (JsError (js "Cannot read properties of null (reading 'name')"))).
Proof.
  split; [reflexivity|].
  apply (dropped_file_is_not_submitted
           [Page.DragOver; Page.Drop [cat] blob1; Page.Remove;
            Page.Drop [dog; notes] blob2] env_ok empty_state).
  repeat constructor.
Defined.

Lemma chosen_file_is_submitted_witness :
  let p := Page.run ([Page.DragOver; Page.DragLeave]
                     ++ Page.Change [cat] blob1
                        :: [Page.Remove; Page.Drop [dog] blob2; Page.DragLeave])
             Page.initial in
  Page.previewUrl p = Some blob2
  /\ Page.image p = Some cat
  /\ formData (Page.onSubmit p) = inr [(js "image", EntryFile cat)]
  /\ key (action env_ok (Page.onSubmit p) empty_state).2
     = Some (derive_key (Date_now env_ok) (File.name cat))
  /\ exists post,
       calls (action env_ok (Page.onSubmit p) empty_state).2
       = calls empty_state
         ++ CallPut (derive_key (Date_now env_ok) (File.name cat)) cat :: post.
Proof.
  split; [reflexivity|].
  apply (chosen_file_is_submitted [Page.DragOver; Page.DragLeave] cat [] blob1
           [Page.Remove; Page.Drop [dog] blob2; Page.DragLeave] env_ok empty_state).
  repeat constructor.
Defined.

End FurtherAtFixtures.

(** ** The calls of one run *)

Section Pipeline.

Context (E : env) (rq : Request) (s : state).

Local Abbreviation r := (action E rq s).

(** X15: the calls of one run of [action] follow the pipeline: none at
    all, or the put followed by the delete, or put, fetch and delete,
    or put, fetch, the description generator, the insert and then the
    delete or nothing more. So each collaborator is called at most
    once, the generator only on bytes that were read back, and the
    insert whenever the generator was called. *)
Theorem calls_follow_the_pipeline :
  new_calls s r.2 = []
  \/ exists fd file,
       formData rq = inr fd
       /\ FormData_get fd (js "image") = Some (EntryFile file)
       /\ let k := derive_key (Date_now E) (File.name file) in
          let u := public_url (R2_PUBLIC_URL E) k in
          new_calls s r.2 = [CallPut k file; CallDelete k]
          \/ new_calls s r.2 = [CallPut k file; CallFetch u; CallDelete k]
          \/ exists b,
               readback_gives E u b
               /\ let d := description_of (AI_run E b) in
                  new_calls s r.2
                  = [CallPut k file; CallFetch u; CallAi b;
                     CallInsert u (File.name file) d; CallDelete k]
                  \/ new_calls s r.2
                     = [CallPut k file; CallFetch u; CallAi b;
                        CallInsert u (File.name file) d].
Proof.
  unfold new_calls.
  destruct (action_outcome E rq s)
    as [e _ _ H2 _ _ | fd e _ _ _ H2 _ _
        | fd file e Hform Hfile k Hput _ H2 _ _
        | fd file e mid Hform Hfile k u Hput Hlate _ _ _ _ _
        | fd file b Hform Hfile k u d _ Hrb _ _ H2 _ _].
  - left. by rewrite H2, drop_all.
  - left. by rewrite H2, drop_all.
  - right. exists fd, file. split; [done|]. split; [done|]. left.
    by rewrite H2, drop_app_length.
  - right. exists fd, file. split; [done|]. split; [done|].
    destruct Hlate as [e Hfail | b e Hrb Hins].
    + destruct (action_readback_fails E rq fd file s Hform Hfile e Hput Hfail)
        as (_ & H2 & _).
      right. left. by rewrite H2, drop_app_length.
    + destruct (action_insert_fails E rq fd file s Hform Hfile b e Hput Hrb Hins)
        as (_ & H2 & _).
      right. right. exists b. split; [done|]. left.
      by rewrite H2, drop_app_length.
  - right. exists fd, file. split; [done|]. split; [done|].
    right. right. exists b. split; [done|]. right.
    by rewrite H2, drop_app_length.
Qed.

(** X16: when the delete of the rollback fails after a late failure,
    the caller still gets the error of the failed step, no record is
    inserted, and the blob that was put stays in the bucket under the
    key. *)
Theorem failed_rollback_leaves_blob fd file e de :
  formData rq = inr fd ->
  FormData_get fd (js "image") = Some (EntryFile file) ->
  let k := derive_key (Date_now E) (File.name file) in
  R2_put E k file = None ->
  late_failure E (public_url (R2_PUBLIC_URL E) k) (File.name file) e ->
  R2_delete E k = Some de ->
  r.1 = Ok (error_response e)
  /\ R2 r.2 !! k = Some {| body := File.bytes file;
                           contentType := File.type file |}
  /\ DB r.2 = DB s
  /\ LogDeleteFailed de ∈ new_console s r.2.
Proof.
  intros Hform Hfile k Hput Hlate Hdel.
  destruct (action_late_failure E rq fd file s Hform Hfile e Hput Hlate)
    as (H1 & (mid & H2 & _) & H3 & H4).
  split; [done|]. split; [|split; [done|]].
  - rewrite H3. unfold after_delete. fold k. rewrite Hdel.
    apply lookup_insert_eq.
  - apply (delete_failure_logged E rq s k de); [|done].
    unfold new_calls. rewrite H2, drop_app_length. set_solver.
Qed.

End Pipeline.

(** ** The shape of a key *)

Lemma digit_not_whitespace c : is_digit c = true -> is_whitespace c = false.
Proof.
  unfold is_digit. intros H. apply andb_true_iff in H as [Hlo Hhi].
  apply N.leb_le in Hlo, Hhi.
  assert (c = 48 \/ c = 49 \/ c = 50 \/ c = 51 \/ c = 52 \/ c = 53 \/ c = 54
          \/ c = 55 \/ c = 56 \/ c = 57)%N as Hc by lia.
  repeat destruct Hc as [-> | Hc]; try done. by subst.
Qed.

(** X17: every key that [action] derives starts with ["images/"], is
    not empty (so the guard of the rollback lets the delete through)
    and holds no whitespace character, whatever the file name. *)
Theorem key_shape now name :
  Page.startsWith (derive_key now name) (js "images/") = true
  /\ truthy (Some (derive_key now name)) = true
  /\ Forall (fun c => is_whitespace c = false) (derive_key now name).
Proof.
  split; [reflexivity|]. split; [reflexivity|].
  unfold derive_key. rewrite !Forall_app.
  split; [by repeat constructor|]. split; [|split].
  - destruct (number_to_string_digits now) as (d & -> & Hd & _).
    apply Forall_app. split; [by case_decide; repeat constructor|].
    eapply Forall_impl; [exact Hd|]. apply digit_not_whitespace.
  - by repeat constructor.
  - apply replace_ws_runs_no_whitespace.
Qed.

Section PipelineAtFixtures.

Import Fixture.

Lemma failed_rollback_leaves_blob_witness :
  let E := with_R2_delete env_fetch_404 (fun _ => Some boom) in
  let k := derive_key 1700000000000 (js "cat.png") in
  let r := action E (upload cat) empty_state in
  r.1 = Ok (error_response
              (JsError (js "Failed to fetch uploaded image: " ++ js "Not Found")))
  /\ R2 r.2 !! k = Some {| body := File.bytes cat; contentType := File.type cat |}
  /\ DB r.2 = DB empty_state
  /\ LogDeleteFailed boom ∈ new_console empty_state r.2.
Proof.
  apply (failed_rollback_leaves_blob
           (with_R2_delete env_fetch_404 (fun _ => Some boom)) (upload cat)
           empty_state [(js "image", EntryFile cat)] cat
           (JsError (js "Failed to fetch uploaded image: " ++ js "Not Found"))
           boom);
    [reflexivity | reflexivity | reflexivity | | reflexivity].
  apply fails_at_readback.
  apply (fetch_not_ok _ _ (js "Not Found") (inr [])). reflexivity.
Defined.

End PipelineAtFixtures.

(** * A table that is not empty *)

Section AtStockedFixtures.

Import Fixture Fixture2.

Local Abbreviation cat_key := (derive_key 1700000000000 (js "cat.png")).
Local Abbreviation cat_url := (public_url (js "https://pub.example") cat_key).
Local Abbreviation cat_form := [(js "image", EntryFile cat)].
Local Abbreviation base := (js "https://pub.example").
Local Abbreviation not_found :=
  (JsError (js "Failed to fetch uploaded image: " ++ js "Not Found")).
Local Abbreviation png := [137%N; 80%N; 78%N; 71%N].

Lemma stocked_no_orphans : no_orphans base stocked.
Proof.
  intros row Hrow. apply list_elem_of_singleton in Hrow as ->.
  exists (derive_key 1600000000000 (js "dog.png")). split; [reflexivity|].
  unfold stocked. cbn [R2]. rewrite lookup_singleton_eq. by eexists.
Qed.

Lemma stocked_fresh : R2 stocked !! cat_key = None.
Proof.
  unfold stocked. cbn [R2]. apply lookup_singleton_ne.
  intros Heq. vm_compute in Heq. discriminate Heq.
Qed.





(** C4 as stated fails: the generator answers with an object that has
    no [description]. Nothing is thrown at the generator, so the
    sentinel is not used: [undefined] goes to the insert, the database
    refuses it, and the attempt ends with the rollback and an error;
    with a database that takes it the record has no description. *)
Lemma malformed_description_counterexample :
  let r := action env_ai_malformed (upload cat) empty_state in
  let r' := action env_ai_malformed_lenient (upload cat) empty_state in
  AI_run env_ai_malformed png = AiResolves (AiObject None)
  /\ new_calls empty_state r.2
     = [CallPut cat_key cat; CallFetch cat_url; CallAi png;
        CallInsert cat_url (js "cat.png") None; CallDelete cat_key]
  /\ (CallInsert cat_url (js "cat.png") (Some sentinel) ∉ calls r.2)
  /\ r.1 = Ok (error_response d1_type_error)
  /\ DB r.2 = []
  /\ r'.1 = Ok {| data := ActionSuccess; status := 200 |}
  /\ Image.description <$> DB r'.2 = [None].
Proof.
  cbn zeta. split; [reflexivity|].
  assert (Hcalls : calls (action env_ai_malformed (upload cat) empty_state).2
                   = [CallPut cat_key cat; CallFetch cat_url; CallAi png;
                      CallInsert cat_url (js "cat.png") None; CallDelete cat_key]).
  { vm_compute. reflexivity. }
  split; [unfold new_calls; by rewrite Hcalls|]. split.
  - rewrite Hcalls. intros Hin.
    repeat (apply elem_of_cons in Hin as [Hin | Hin]; [discriminate Hin|]).
    by apply elem_of_nil in Hin.
  - split; [vm_compute; reflexivity|]. split; [vm_compute; reflexivity|].
    split; vm_compute; reflexivity.
Qed.

Lemma store_keys_differ_by_timestamp_witness :
  let E1 := env_ok in
  let E2 := with_Date_now env_ok 1700000000001 in
  let k1 := js "images/" ++ number_to_string 1700000000000 ++ js "-"
            ++ sanitize (js "my cat pic.png") in
  let k2 := js "images/" ++ number_to_string 1700000000001 ++ js "-"
            ++ sanitize (js "my cat pic.png") in
  (k1 = js "images/1700000000000-my-cat-pic.png"
   /\ k2 = js "images/1700000000001-my-cat-pic.png")
  /\ key (action E1 (upload spaced) empty_state).2 = Some k1
  /\ key (action E2 (upload spaced) empty_state).2 = Some k2
  /\ (exists post, calls (action E1 (upload spaced) empty_state).2
                   = calls empty_state ++ CallPut k1 spaced :: post)
  /\ (exists post, calls (action E2 (upload spaced) empty_state).2
                   = calls empty_state ++ CallPut k2 spaced :: post)
  /\ Forall (fun c => is_whitespace c = false) (sanitize (js "my cat pic.png"))
  /\ sanitize [] = []
  /\ (forall c rest,
        is_whitespace c = false -> sanitize (c :: rest) = c :: sanitize rest)
  /\ (forall w rest,
        w <> [] -> Forall (fun c => is_whitespace c = true) w ->
        match rest with c :: _ => is_whitespace c = false | [] => True end ->
        sanitize (w ++ rest) = hyphen :: sanitize rest)
  /\ k1 <> k2.
Proof.
  split; [split; vm_compute; reflexivity|].
  apply (store_keys_differ_by_timestamp env_ok (with_Date_now env_ok 1700000000001)
           (upload spaced) (upload spaced)
           [(js "image", EntryFile spaced)] [(js "image", EntryFile spaced)]
           spaced spaced empty_state empty_state);
    [reflexivity | reflexivity | reflexivity | reflexivity | reflexivity |].
  cbn. lia.
Defined.

Lemma no_orphans_preserved_witness :
  let failed := action env_fetch_404 (upload cat) stocked in
  let saved := action env_ok (upload cat) stocked in
  (DB stocked <> [] /\ no_orphans base stocked)
  /\ (DB failed.2 = DB stocked /\ no_orphans base failed.2)
  /\ (length (DB saved.2) = 2%nat /\ no_orphans base saved.2).
Proof.
  cbn zeta.
  assert (Hfresh : forall fd file,
            formData (upload cat) = inr fd ->
            FormData_get fd (js "image") = Some (EntryFile file) ->
            R2 stocked !! derive_key 1700000000000 (File.name file) = None).
  { intros fd file Hfd Hget. injection Hfd as <-.
    vm_compute in Hget. injection Hget as <-. apply stocked_fresh. }
  split; [split; [discriminate | apply stocked_no_orphans]|]. split; split.
  - vm_compute. reflexivity.
  - exact (no_orphans_preserved env_fetch_404 (upload cat) stocked
             Hfresh stocked_no_orphans).
  - vm_compute. reflexivity.
  - exact (no_orphans_preserved env_ok (upload cat) stocked
             Hfresh stocked_no_orphans).
Defined.

End AtStockedFixtures.
